(** * Bloch-equation animation: the relaxation trajectory of [bloch_improved.py]

    A shallow embedding of the scene [ImprovedBlochEquation]: the physics
    constants set by [construct], the equilibrium vector computed by
    [demonstrate_bloch_physics], and the relaxation loop of
    [show_relaxation_enhanced], which interpolates the magnetization vector from
    its post-pulse position back to equilibrium and hands every position to the
    animation engine.

    The script computes with Python floats (IEEE-754 binary64) and with numpy
    [float64] arrays.  The embedding is written once over an arithmetic
    interface and instantiated twice: on Rocq's primitive binary64 floats, which
    is the program as it runs, and on the canonical rationals [Qc], which is the
    same loop in the exact arithmetic the trajectory is described in. *)

From Stdlib Require Import ZArith QArith Qcanon Qround List Bool Floats Lia Lra Psatz.
From Stdlib Require Strings.String Numbers.DecimalString.
Import ListNotations.

Set Warnings "-inexact-float".

(** ** Python exceptions the arithmetic of the script can raise *)

Inductive pyerr : Type :=
| ZeroDivisionError   (* float division by zero *)
| OverflowError       (* int() of an infinity *)
| ValueError          (* int() of a NaN *)
| AttributeError.     (* an attribute of the scene read before it is set *)

(** ** The arithmetic interface

    [of_int] is the conversion Python applies to an [int] operand of a mixed
    [int]/[float] operation, [to_int] is the builtin [int()] on a float
    (truncation toward zero), [num_quot] is the quotient of [/] once the divisor
    is known not to be zero. *)

Class Number (F : Type) : Type := {
  of_int : Z -> F;
  to_int : F -> pyerr + Z;
  num_add : F -> F -> F;
  num_sub : F -> F -> F;
  num_mul : F -> F -> F;
  num_quot : F -> F -> F;
  num_neg : F -> F;
  num_eqb : F -> F -> bool;
  num_ltb : F -> F -> bool;
  num_leb : F -> F -> bool
}.

Declare Scope num_scope.
Delimit Scope num_scope with num.
Infix "+" := num_add : num_scope.
Infix "-" := num_sub : num_scope.
Infix "*" := num_mul : num_scope.
Infix "/" := num_quot : num_scope.
Notation "- x" := (num_neg x) : num_scope.
Infix "=?" := num_eqb : num_scope.
Infix "<?" := num_ltb : num_scope.
Infix "<=?" := num_leb : num_scope.

(** The functions taken from numpy and the constant [PI] of manim. *)

Record Libm (F : Type) : Type := {
  lm_pi : F;
  lm_exp : F -> F;
  lm_sin : F -> F;
  lm_cos : F -> F
}.
Arguments lm_pi {F}.
Arguments lm_exp {F}.
Arguments lm_sin {F}.
Arguments lm_cos {F}.

(** *** Instance 1: IEEE-754 binary64 *)

Module Binary64.

(** [float(z)]: the integer rounded to the nearest binary64, ties to even.
    (Python raises [OverflowError] from [2^1024] on, where this gives an
    infinity; the loop counter stays below the step count, which is the
    integer part of a finite float.) *)
Definition float_of_int (z : Z) : float :=
  SF2Prim (binary_normalize prec emax z 0 false).

(** [int(x)]: the float truncated toward zero; an infinity raises
    [OverflowError], a NaN raises [ValueError]. *)
Definition float_to_int (x : float) : pyerr + Z :=
  match Prim2SF x with
  | S754_zero _ => inr 0%Z
  | S754_infinity _ => inl OverflowError
  | S754_nan => inl ValueError
  | S754_finite s m e =>
      let a := Z.shiftl (Zpos m) e in
      inr (if s then (- a)%Z else a)
  end.

#[export] Instance binary64 : Number float := {|
  of_int := float_of_int;
  to_int := float_to_int;
  num_add := PrimFloat.add;
  num_sub := PrimFloat.sub;
  num_mul := PrimFloat.mul;
  num_quot := PrimFloat.div;
  num_neg := PrimFloat.opp;
  num_eqb := PrimFloat.eqb;
  num_ltb := PrimFloat.ltb;
  num_leb := PrimFloat.leb
|}.

(** Neither a NaN nor an infinity. *)
Definition is_finite (x : float) : bool :=
  match Prim2SF x with
  | S754_zero _ | S754_finite _ _ _ => true
  | _ => false
  end.

(** The float [-0.0]. *)
Definition is_neg_zero (x : float) : bool :=
  match Prim2SF x with
  | S754_zero true => true
  | _ => false
  end.

(** The rational a finite float stands for. *)
Definition float_value (x : float) : option Q :=
  match Prim2SF x with
  | S754_zero _ => Some 0%Q
  | S754_finite s m e =>
      let a := match e with
               | Zneg p => (Zpos m # 2 ^ p)%Q
               | _ => inject_Z (Zpos m * 2 ^ e)
               end in
      Some (if s then (- a)%Q else a)
  | _ => None
  end.

(** The floor of the quotient of two finite floats, taken on the rationals
    they stand for: no rounding of the quotient comes in. *)
Definition floor_of_quotient (x y : float) : option Z :=
  match float_value x, float_value y with
  | Some a, Some b => Some (Qfloor (a / b))
  | _, _ => None
  end.

(** [n / d] rounded to the nearest integer, ties to even ([0 <= n], [0 < d]). *)
Definition round_half_even (n d : Z) : Z :=
  let q := (n / d)%Z in
  let r := (n mod d)%Z in
  match (2 * r ?= d)%Z with
  | Lt => q
  | Gt => (q + 1)%Z
  | Eq => if Z.even q then q else (q + 1)%Z
  end.

(** The number of hundredths that [f"{x:.2f}"] prints for [x], as
    [update_parameter_display] formats every value it shows: the exact value
    of the float, correctly rounded to two decimals. *)
Definition hundredths (x : float) : option Z :=
  match Prim2SF x with
  | S754_zero _ => Some 0%Z
  | S754_finite s m e =>
      let a := match e with
               | Zneg p => round_half_even (100 * Zpos m) (2 ^ Zpos p)
               | _ => (100 * Zpos m * 2 ^ e)%Z
               end in
      Some (if s then (- a)%Z else a)
  | _ => None
  end.

(** numpy at the arguments the scene passes: [np.pi], and the sine and the
    cosine of [15 * DEGREES], the only angle of the script.  The value of
    [np.exp] reaches no engine call, so it is left as the identity. *)
Definition libm_15deg : Libm float := {|
  lm_pi := 3.141592653589793%float;
  lm_exp := fun x => x;
  lm_sin := fun _ => 0.25881904510252074%float;
  lm_cos := fun _ => 0.9659258262890683%float
|}.

End Binary64.

(** *** Instance 2: exact rationals *)

Module Exact.

Definition Qc_ltb (x y : Qc) : bool :=
  match (x ?= y)%Qc with Lt => true | _ => false end.

Definition Qc_leb (x y : Qc) : bool :=
  match (x ?= y)%Qc with Gt => false | _ => true end.

#[export] Instance exact : Number Qc := {|
  of_int := fun z => Q2Qc (inject_Z z);
  to_int := fun q => inr (Z.quot (Qnum q) (Zpos (Qden q)));
  num_add := Qcplus;
  num_sub := Qcminus;
  num_mul := Qcmult;
  num_quot := Qcdiv;
  num_neg := Qcopp;
  num_eqb := Qc_eq_bool;
  num_ltb := Qc_ltb;
  num_leb := Qc_leb
|}.

(** The exact arithmetic has no exponential, sine or cosine; the statements
    about it hold for every choice of them.  This choice stands in where one
    has to be named. *)
Definition libm_rational : Libm Qc := {|
  lm_pi := Q2Qc (355 # 113);
  lm_exp := fun x => x;
  lm_sin := fun x => x;
  lm_cos := fun _ => Q2Qc 1
|}.

End Exact.

Import Binary64 Exact.

(** ** Vectors, events and the scene *)

Section Scene.

Context {F : Type} `{Number F}.
Local Open Scope num_scope.

(** A decimal literal [m * 10^-k], such as [0.05 = decimal 5 2]: the nearest
    float to the decimal, which is what dividing the two exactly represented
    integers yields. *)
Definition decimal (m : Z) (k : nat) : F := of_int m / of_int (10 ^ Z.of_nat k).

(** A three-component numpy array (or a three-element list of floats). *)
Record vec3 : Type := Vec3 { vx : F; vy : F; vz : F }.

(** [c * v] for a scalar [c] and an array [v]. *)
Definition scale (c : F) (v : vec3) : vec3 :=
  Vec3 (c * vx v) (c * vy v) (c * vz v).

(** [v * c] for an array [v] and a scalar [c]. *)
Definition scale_r (v : vec3) (c : F) : vec3 :=
  Vec3 (vx v * c) (vy v * c) (vz v * c).

(** [u + v] for two arrays. *)
Definition vadd (u v : vec3) : vec3 :=
  Vec3 (vx u + vx v) (vy u + vy v) (vz u + vz v).

(** The four texts the status line goes through. *)
Inductive status : Type :=
| Equilibrium_State
| RF_Pulse_Applied
| Free_Induction_Decay
| Return_to_Equilibrium.

(** What the scene asks of the animation engine, in call order. *)
Inductive event : Type :=
| ev_setup                                  (* setup_scene: axes, labels, title *)
| ev_create (end_ : vec3)                   (* Create(self.magnetization) *)
| ev_status (text : status)                 (* the status text is replaced *)
| ev_camera                                 (* move_camera *)
| ev_pulse (end_ : vec3)                    (* the RF arrow, then the vector tipped to end_ *)
| ev_create_display (m : vec3) (t : F)      (* create_parameter_display *)
| ev_display (m : vec3) (t : F)             (* update_parameter_display *)
| ev_transform (end_ : vec3) (run_time : F) (* play(Transform(magnetization, arrow to end_)) *)
| ev_wait (d : F).                          (* wait *)

(** The attributes of [self] the trajectory reads, and the engine calls made
    so far. *)
Record scene : Type := Scene_ {
  testing_mode : bool;
  T1 : F;
  T2 : F;
  M0 : F;
  equilibrium_end : option vec3;
  trace : list event
}.

(** *** The monad of scene methods: state and exceptions

    A method that raises leaves the scene as it was at the raise: the engine
    calls made before it stay made. *)

Definition M (A : Type) : Type := scene -> (pyerr + A) * scene.

Definition ret {A} (a : A) : M A := fun s => (inr a, s).

Definition bind {A B} (m : M A) (k : A -> M B) : M B :=
  fun s =>
    match m s with
    | (inl e, s') => (inl e, s')
    | (inr a, s') => k a s'
    end.

Definition raise {A} (e : pyerr) : M A := fun s => (inl e, s).

Definition lift {A} (r : pyerr + A) : M A := fun s => (r, s).

Definition get {A} (f : scene -> A) : M A := fun s => (inr (f s), s).

Definition with_trace (s : scene) (tr : list event) : scene :=
  Scene_ (testing_mode s) (T1 s) (T2 s) (M0 s) (equilibrium_end s) tr.

Definition emit (e : event) : M unit :=
  fun s => (inr tt, with_trace s (trace s ++ [e])).

Definition set_equilibrium_end (v : vec3) : M unit :=
  fun s => (inr tt,
            Scene_ (testing_mode s) (T1 s) (T2 s) (M0 s) (Some v) (trace s)).

(** Whether [self.mx_display], [self.my_display], [self.mz_display] and
    [self.time_display] exist: [create_parameter_display] is what assigns
    them, and nothing deletes them. *)
Fixpoint has_display (tr : list event) : bool :=
  match tr with
  | [] => false
  | ev_create_display _ _ :: _ => true
  | _ :: tr' => has_display tr'
  end.

End Scene.

Arguments vec3 F : clear implicits.
Arguments event F : clear implicits.
Arguments scene F : clear implicits.
Arguments M F A : clear implicits.

Declare Scope scene_scope.
Delimit Scope scene_scope with scene.
Notation "x <- m ;; k" := (bind m (fun x => k))
  (at level 61, m at next level, right associativity) : scene_scope.
Notation "m ;; k" := (bind m (fun _ => k))
  (at level 61, right associativity) : scene_scope.

(** ** The methods of [ImprovedBlochEquation] *)

Section Methods.

Context {F : Type} `{Number F}.
Variable lm : Libm F.

Local Open Scope num_scope.
Local Open Scope scene_scope.

(** Python's [x / y] on two floats. *)
Definition truediv (x y : F) : M F F :=
  if y =? of_int 0 then raise ZeroDivisionError else ret (x / y).

(** manim's [DEGREES = TAU / 360], with [TAU = 2 * PI]. *)
Definition DEGREES : F := (of_int 2 * lm_pi lm) / of_int 360.

(** [for i in range(steps): body(i)]; a negative [steps] gives no iteration. *)
Fixpoint for_range_from (i : Z) (n : nat) (body : Z -> M F unit) : M F unit :=
  match n with
  | O => ret tt
  | S n' => body i ;; for_range_from (i + 1)%Z n' body
  end.

Definition for_range (steps : Z) (body : Z -> M F unit) : M F unit :=
  for_range_from 0%Z (Z.to_nat steps) body.

Definition create_parameter_display (mx my mz t : F) : M F unit :=
  emit (ev_create_display (Vec3 mx my mz) t).

(** Lines 367-370 read [self.mx_display] and its three siblings before
    anything is shown: without them the first read raises. *)
Definition update_parameter_display (Mx My Mz t : F) : M F unit :=
  shown <- get trace ;;
  if has_display shown then emit (ev_display (Vec3 Mx My Mz) t)
  else raise AttributeError.

(** The equilibrium vector of [demonstrate_bloch_physics] (lines 158-163). *)
Definition equilibrium_vector (M0_ : F) : vec3 F :=
  let initial_tilt := of_int 15 * DEGREES in
  Vec3 (decimal 2 1 * lm_sin lm initial_tilt)
       (of_int 0)
       (M0_ * lm_cos lm initial_tilt).

Definition apply_rf_pulse_enhanced : M F unit :=
  emit (ev_status RF_Pulse_Applied) ;;
  M0_ <- get M0 ;;
  let target_end := Vec3 (of_int 0) M0_ (of_int 0) in
  emit ev_camera ;;
  emit (ev_pulse target_end) ;;
  create_parameter_display (decimal 0 1) M0_ (decimal 0 1) (decimal 0 1).

(** One iteration of the relaxation loop (lines 283-323), for the loop
    counter [i] of [range(steps)].  The two exponential factors are computed
    as the script computes them, reading [self.T2], [self.M0] and [self.T1]
    in its order; the position comes from [alpha] alone. *)
Definition relaxation_step (start_pos final_pos : vec3 F) (total_time dt : F)
    (i : Z) : M F unit :=
  let t := of_int (i + 1) * dt in
  T2_ <- get T2 ;;
  x2 <- truediv (- t) T2_ ;;
  let decay_t2 := lm_exp lm x2 in
  M0_ <- get M0 ;;
  let initial_M_transverse := Vec3 (decimal 0 1) M0_ (decimal 0 1) in
  let M_transverse_t := scale_r initial_M_transverse decay_t2 in
  let Mz_equilibrium := vz final_pos in
  T1_ <- get T1 ;;
  x1 <- truediv (- t) T1_ ;;
  let Mz_t := Mz_equilibrium * (of_int 1 - lm_exp lm x1) in
  alpha <- truediv t total_time ;;
  let current_pos :=
    vadd (scale (of_int 1 - alpha) start_pos) (scale alpha final_pos) in
  update_parameter_display (vx current_pos) (vy current_pos) (vz current_pos) t ;;
  emit (ev_transform current_pos dt).

(** Lines 274-323 of [show_relaxation_enhanced], with the two endpoint
    vectors, the duration and the step taken as arguments: the step count
    and the loop. *)
Definition relaxation_loop (start_pos final_pos : vec3 F) (total_time dt : F)
    : M F unit :=
  q <- truediv total_time dt ;;
  steps <- lift (to_int q) ;;
  for_range steps (relaxation_step start_pos final_pos total_time dt).

(** Lines 325-336: the final state is shown whatever the loop did. *)
Definition relaxation_final (final_pos : vec3 F) (total_time dt : F)
    : M F unit :=
  emit (ev_transform final_pos dt) ;;
  update_parameter_display (vx final_pos) (vy final_pos) (vz final_pos)
                           total_time ;;
  emit (ev_wait (of_int 1)).

Definition relaxation (start_pos final_pos : vec3 F) (total_time dt : F)
    : M F unit :=
  relaxation_loop start_pos final_pos total_time dt ;;
  relaxation_final final_pos total_time dt.

(** Lines 274-336 on a scene whose [self.equilibrium_end] was never
    assigned.  Its first read raises: at line 291, in the first iteration
    and after the division by [self.T2] of line 286, or at line 328 when the
    loop has no iteration. *)
Definition relaxation_unset (total_time dt : F) : M F unit :=
  q <- truediv total_time dt ;;
  steps <- lift (to_int q) ;;
  match Z.to_nat steps with
  | O => raise AttributeError
  | S _ =>
      T2_ <- get T2 ;;
      _ <- truediv (- (of_int (0 + 1) * dt)) T2_ ;;
      raise AttributeError
  end.

Definition show_relaxation_enhanced : M F unit :=
  emit (ev_status Free_Induction_Decay) ;;
  emit ev_camera ;;
  testing <- get testing_mode ;;
  let total_time := if (testing : bool) then decimal 3 1 else decimal 15 1 in
  let dt := decimal 5 2 in
  M0_ <- get M0 ;;
  final <- get equilibrium_end ;;
  match final with
  | None => relaxation_unset total_time dt
  | Some final_pos =>
      relaxation (Vec3 (of_int 0) M0_ (of_int 0)) final_pos total_time dt
  end.

Definition show_final_summary : M F unit :=
  emit (ev_status Return_to_Equilibrium) ;;
  testing <- get testing_mode ;;
  emit (ev_wait (if (testing : bool) then decimal 5 1 else of_int 2)).

Definition demonstrate_bloch_physics : M F unit :=
  M0_ <- get M0 ;;
  let equilibrium_end_ := equilibrium_vector M0_ in
  set_equilibrium_end equilibrium_end_ ;;
  emit (ev_create equilibrium_end_) ;;
  emit (ev_status Equilibrium_State) ;;
  apply_rf_pulse_enhanced ;;
  show_relaxation_enhanced ;;
  show_final_summary.

(** The scene as [construct] leaves it before the first engine call. *)
Definition initial_scene (testing : bool) : scene F :=
  Scene_ testing (decimal 10 1) (decimal 1 1) (decimal 10 1) None [].

Definition construct (testing : bool) : (pyerr + unit) * scene F :=
  (emit ev_setup ;; demonstrate_bloch_physics) (initial_scene testing).

(** *** The samples of a run *)

(** A magnetization sample: the position shown and its time. *)
Record sample : Type := Sample { position : vec3 F; time : F }.

Fixpoint samples (tr : list (event F)) : list sample :=
  match tr with
  | [] => []
  | ev_display m t :: tr' => Sample m t :: samples tr'
  | _ :: tr' => samples tr'
  end.

(** The scene the trajectory starts from: the parameter display created, as
    line 253 creates it, and no sample shown yet. *)
Definition sampler_scene (T1_ T2_ M0_ : F) : scene F :=
  Scene_ true T1_ T2_ M0_ None
         [ev_create_display (Vec3 (decimal 0 1) M0_ (decimal 0 1))
                            (decimal 0 1)].

(** The trajectory sampler: the relaxation run on that scene, read as the
    outcome and the samples it displayed. *)
Definition sampler (T1_ T2_ M0_ : F) (start_pos final_pos : vec3 F)
    (total_time dt : F) : (pyerr + unit) * list sample :=
  let r := relaxation start_pos final_pos total_time dt
                      (sampler_scene T1_ T2_ M0_) in
  (fst r, samples (trace (snd r))).

(** The same for the loop alone: the samples before the final one. *)
Definition loop_sampler (T1_ T2_ M0_ : F) (start_pos final_pos : vec3 F)
    (total_time dt : F) : (pyerr + unit) * list sample :=
  let r := relaxation_loop start_pos final_pos total_time dt
                           (sampler_scene T1_ T2_ M0_) in
  (fst r, samples (trace (snd r))).

End Methods.

Arguments sample F : clear implicits.

(** ** The trajectory in closed form, and the properties asked of it *)

Section Closed_form.

Context {F : Type} `{Number F}.

Local Open Scope num_scope.

Definition is_positive (x : F) : Prop := (of_int 0 <? x) = true.

Definition is_nonzero (x : F) : Prop := (x =? of_int 0) = false.

(** [(1 - alpha) * start + alpha * end], componentwise. *)
Definition lerp (start_pos final_pos : vec3 F) (alpha : F) : vec3 F :=
  vadd (scale (of_int 1 - alpha) start_pos) (scale alpha final_pos).

(** Step [i] (counted from 1): its time, its fraction, its sample. *)
Definition step_time (dt : F) (i : Z) : F := of_int i * dt.

Definition step_alpha (total_time dt : F) (i : Z) : F :=
  step_time dt i / total_time.

Definition step_sample (start_pos final_pos : vec3 F) (total_time dt : F)
    (i : Z) : sample F :=
  Sample (lerp start_pos final_pos (step_alpha total_time dt i))
         (step_time dt i).

(** The step indices [1, ..., n]. *)
Definition step_indices (n : Z) : list Z :=
  map Z.of_nat (seq 1 (Z.to_nat n)).

(** The engine calls of step [i] and of the final state. *)
Definition step_events (start_pos final_pos : vec3 F) (total_time dt : F)
    (i : Z) : list (event F) :=
  let p := lerp start_pos final_pos (step_alpha total_time dt i) in
  [ev_display p (step_time dt i); ev_transform p dt].

Definition final_events (final_pos : vec3 F) (total_time dt : F)
    : list (event F) :=
  [ev_transform final_pos dt; ev_display final_pos total_time;
   ev_wait (of_int 1)].

(** Decidable order properties of a sequence of numbers. *)
Fixpoint increasing (l : list F) : bool :=
  match l with
  | x :: ((y :: _) as l') => (x <? y) && increasing l'
  | _ => true
  end.

Fixpoint nondecreasing (l : list F) : bool :=
  match l with
  | x :: ((y :: _) as l') => (x <=? y) && nondecreasing l'
  | _ => true
  end.

Fixpoint nonincreasing (l : list F) : bool :=
  match l with
  | x :: ((y :: _) as l') => (y <=? x) && nonincreasing l'
  | _ => true
  end.

Definition between (lo hi x : F) : bool := (lo <=? x) && (x <=? hi).

(** A coordinate that starts at [a] and is headed for [b] moves
    monotonically through the values [l]. *)
Definition monotone_toward (a b : F) (l : list F) : bool :=
  if a <=? b then nondecreasing (a :: l) else nonincreasing (a :: l).

(** The last two elements of a sequence. *)
Definition last_two {A} (l : list A) : list A := skipn (length l - 2) l.

(** The times of a sequence of samples, and one coordinate of its positions. *)
Definition times (l : list (sample F)) : list F := map (@time F) l.

Definition coords (proj : vec3 F -> F) (l : list (sample F)) : list F :=
  map (fun s => proj (position s)) l.

(** The sampler as a function of the two vectors, the duration and the step
    alone: the outcome and the samples, with neither relaxation time nor
    exponential in sight. *)
Definition trajectory (start_pos final_pos : vec3 F) (total_time dt : F)
    : (pyerr + unit) * list (sample F) :=
  if dt =? of_int 0 then (inl ZeroDivisionError, [])
  else
    match to_int (total_time / dt) with
    | inl e => (inl e, [])
    | inr n =>
        match Z.to_nat n with
        | O => (inr tt, [Sample final_pos total_time])
        | S _ =>
            if total_time =? of_int 0 then (inl ZeroDivisionError, [])
            else
              (inr tt,
               map (step_sample start_pos final_pos total_time dt)
                   (step_indices n)
               ++ [Sample final_pos total_time])
        end
    end.

(** A method that leaves [self.equilibrium_end] as it found it, whether it
    returns or raises. *)
Definition keeps_equilibrium {A} (m : M F A) : Prop :=
  forall s : scene F, equilibrium_end (snd (m s)) = equilibrium_end s.

End Closed_form.

(** What the proofs that hold in both arithmetics use of the numbers. *)
Class NumberLaws (F : Type) `{Number F} : Prop := {
  positive_nonzero : forall x : F, is_positive x -> is_nonzero x;
  steps_nonneg : forall (x y : F) (n : Z),
      is_positive x -> is_positive y -> to_int (x / y)%num = inr n -> (0 <= n)%Z;
  above_nonneg_positive : forall x y : F,
      (of_int 0 <=? x)%num = true -> (x <? y)%num = true -> is_positive y;
  no_step : forall x y : F,
      (of_int 0 <=? x)%num = true -> (x <? y)%num = true ->
      to_int (x / y)%num = inr 0%Z
}.

(** Binary64 vectors whose components are all finite, and vectors none of
    whose components is [-0.0]. *)
Definition finite_vec (v : vec3 float) : bool :=
  is_finite (vx v) && is_finite (vy v) && is_finite (vz v).

Definition no_neg_zero (v : vec3 float) : bool :=
  negb (is_neg_zero (vx v)) && negb (is_neg_zero (vy v))
  && negb (is_neg_zero (vz v)).

(** ** Readings of a trace *)

Section Trace_readings.

Context {F : Type} `{Number F}.

Local Open Scope num_scope.

(** The arrows the [Transform]s of the relaxation are played to, each with
    the [run_time] passed to [play], in call order. *)
Fixpoint transforms (tr : list (event F)) : list (vec3 F * F) :=
  match tr with
  | [] => []
  | ev_transform p d :: tr' => (p, d) :: transforms tr'
  | _ :: tr' => transforms tr'
  end.

(** The run times requested for the [Transform]s of a trace, added up. *)
Definition play_time (tr : list (event F)) : F :=
  fold_right num_add (of_int 0) (map snd (transforms tr)).



Variable lm : Libm F.



End Trace_readings.

(** What the first step of the loop uses of the numbers. *)
Class StepLaws (F : Type) `{Number F} : Prop := {
  one_step : forall (x y : F) (n : Z),
      is_positive y -> (y <=? x)%num = true -> to_int (x / y)%num = inr n ->
      (1 <= n)%Z;
  one_mul : forall x : F, (of_int 1 * x)%num = x
}.

(** A mantissa and an exponent whose value [m * 2^e] is at least one. *)
Definition at_least_one (m e : Z) : Prop :=
  (1 <= m)%Z /\ ((e < 0)%Z -> (2 ^ (- e) <= m)%Z).

(** ** The texts of the parameter display *)

Module Display.

Import String.

(** The sign of a float, a zero's included. *)
Definition sign_bit (x : float) : bool :=
  match Prim2SF x with
  | S754_zero s | S754_infinity s | S754_finite s _ _ => s
  | S754_nan => false
  end.

(** A natural number in decimal. *)
Definition digits (n : Z) : string :=
  DecimalString.NilZero.string_of_uint (N.to_uint (Z.to_N n)).

Definition two_digits (n : Z) : string :=
  append (digits (n / 10)) (digits (n mod 10)).

(** A number of hundredths with its decimal point, as in [0.05]. *)
Definition hundredths_text (a : Z) : string :=
  append (digits (a / 100)) (append "." (two_digits (a mod 100))).

(** [f"{x:.2f}"]: the sign of the float, then its value rounded to
    hundredths; [nan] and [inf] are spelled out. *)
Definition format_2f (x : float) : string :=
  match hundredths x with
  | Some h =>
      append (if sign_bit x then "-" else "") (hundredths_text (Z.abs h))
  | None =>
      match Prim2SF x with
      | S754_infinity true => "-inf"
      | S754_infinity false => "inf"
      | _ => "nan"
      end
  end.

(** The four texts [create_parameter_display] and
    [update_parameter_display] build (lines 342-345 and 367-370). *)
Definition parameter_texts (m : vec3 float) (t : float) : list string :=
  [append "Mx: " (format_2f (vx m));
   append "My: " (format_2f (vy m));
   append "Mz: " (format_2f (vz m));
   append "t: " (append (format_2f t) "s")].

End Display.

(** ** The scene [PositionCheck] *)

Module PositionCheck.

Import String.

Section Construct.

Context {F : Type} `{Number F}.
Variable lm : Libm F.

Local Open Scope num_scope.

(** What [construct] puts on the screen of the magnetization: the end of
    the arrow (lines 473-487) and the three parameter texts (lines
    522-524). *)
Record shown : Type := Shown {
  magnetization_end : vec3 F;
  displays : list string
}.

Definition construct : shown :=
  let M0_ := decimal 10 1 in
  let initial_tilt := of_int 15 * DEGREES lm in
  let equilibrium_end :=
    Vec3 (decimal 2 1 * lm_sin lm initial_tilt)
         (of_int 0)
         (M0_ * lm_cos lm initial_tilt) in
  Shown equilibrium_end ["Mx: 0.20"; "My: 0.00"; "Mz: 0.97"]%string.

End Construct.

End PositionCheck.

(** * Proofs *)

(** ** Runs of the relaxation, in any arithmetic *)

Section Run.

Context {F : Type} `{Number F}.
Variable lm : Libm F.

Local Open Scope num_scope.
Local Open Scope scene_scope.

Lemma vec3_eta (v : vec3 F) : Vec3 (vx v) (vy v) (vz v) = v.
Proof. destruct v; reflexivity. Qed.

Lemma with_trace_twice (s : scene F) (a b : list (event F)) :
  with_trace (with_trace s a) b = with_trace s b.
Proof. reflexivity. Qed.

Lemma with_trace_same (s : scene F) : with_trace s (trace s) = s.
Proof. destruct s; reflexivity. Qed.

Lemma samples_app (a b : list (event F)) :
  samples (a ++ b) = samples a ++ samples b.
Proof.
  induction a as [|e a IH]; [reflexivity|].
  destruct e; simpl; rewrite IH; reflexivity.
Qed.

Lemma samples_steps (start_pos final_pos : vec3 F) (total_time dt : F)
    (l : list Z) :
  samples (flat_map (step_events start_pos final_pos total_time dt) l)
  = map (step_sample start_pos final_pos total_time dt) l.
Proof.
  induction l as [|i l IH]; [reflexivity|].
  simpl. rewrite IH. reflexivity.
Qed.

Lemma has_display_app (a b : list (event F)) :
  has_display a = true -> has_display (a ++ b) = true.
Proof.
  induction a as [|e a IH]; [discriminate|].
  destruct e; cbn [app has_display]; auto.
Qed.

Lemma no_display_app (a b : list (event F)) :
  has_display a = false -> has_display (a ++ b) = has_display b.
Proof.
  induction a as [|e a IH]; [reflexivity|].
  destruct e; cbn [app has_display]; auto; discriminate.
Qed.

Lemma update_parameter_display_run (Mx My Mz t : F) (s : scene F) :
  has_display (trace s) = true ->
  update_parameter_display Mx My Mz t s
  = (inr tt, with_trace s (trace s ++ [ev_display (Vec3 Mx My Mz) t])).
Proof.
  intros Hs. unfold update_parameter_display, bind, get. rewrite Hs.
  reflexivity.
Qed.

Lemma update_parameter_display_raise (Mx My Mz t : F) (s : scene F) :
  has_display (trace s) = false ->
  update_parameter_display Mx My Mz t s = (inl AttributeError, s).
Proof.
  intros Hs. unfold update_parameter_display, bind, get. rewrite Hs.
  reflexivity.
Qed.

Lemma truediv_nonzero (x y : F) (s : scene F) :
  is_nonzero y -> truediv x y s = (inr (x / y), s).
Proof. unfold is_nonzero, truediv. intros ->. reflexivity. Qed.

Lemma truediv_zero (x y : F) (s : scene F) :
  (y =? of_int 0) = true -> truediv x y s = (inl ZeroDivisionError, s).
Proof. unfold truediv. intros ->. reflexivity. Qed.

(** The indices [i + 1, ..., i + n] the loop visits from counter [i]. *)
Lemma indices_from_step (i : Z) (n : nat) :
  map (fun k => (i + Z.of_nat k)%Z) (seq 1 (S n))
  = (i + 1)%Z :: map (fun k => (i + 1 + Z.of_nat k)%Z) (seq 1 n).
Proof.
  cbn [seq map]. f_equal.
  rewrite <- seq_shift, map_map. apply map_ext. intros k. lia.
Qed.

Lemma relaxation_step_run (start_pos final_pos : vec3 F) (total_time dt : F)
    (i : Z) (s : scene F) :
  has_display (trace s) = true ->
  is_nonzero (T1 s) -> is_nonzero (T2 s) -> is_nonzero total_time ->
  relaxation_step lm start_pos final_pos total_time dt i s
  = (inr tt,
     with_trace s
       (trace s ++ step_events start_pos final_pos total_time dt (i + 1))).
Proof.
  intros Hs H1 H2 Ht. unfold relaxation_step, bind, get.
  rewrite (truediv_nonzero _ _ _ H2), (truediv_nonzero _ _ _ H1),
    (truediv_nonzero _ _ _ Ht).
  rewrite update_parameter_display_run by exact Hs.
  unfold emit, step_events, lerp, step_alpha, step_time. cbn.
  rewrite <- app_assoc. reflexivity.
Qed.

Lemma for_range_from_run (start_pos final_pos : vec3 F) (total_time dt : F)
    (n : nat) : forall (i : Z) (s : scene F),
  has_display (trace s) = true ->
  is_nonzero (T1 s) -> is_nonzero (T2 s) -> is_nonzero total_time ->
  for_range_from i n (relaxation_step lm start_pos final_pos total_time dt) s
  = (inr tt,
     with_trace s
       (trace s ++
        flat_map (step_events start_pos final_pos total_time dt)
                 (map (fun k => (i + Z.of_nat k)%Z) (seq 1 n)))).
Proof.
  induction n as [|n IH]; intros i s Hs H1 H2 Ht.
  - cbn. rewrite app_nil_r, with_trace_same. reflexivity.
  - cbn [for_range_from]. unfold bind at 1.
    rewrite relaxation_step_run by assumption.
    rewrite IH by (try apply has_display_app; assumption).
    rewrite indices_from_step. cbn [flat_map].
    rewrite with_trace_twice. cbn [trace with_trace].
    rewrite <- !app_assoc. reflexivity.
Qed.

Lemma relaxation_final_run (final_pos : vec3 F) (total_time dt : F)
    (s : scene F) :
  has_display (trace s) = true ->
  relaxation_final final_pos total_time dt s
  = (inr tt, with_trace s (trace s ++ final_events final_pos total_time dt)).
Proof.
  intros Hs. unfold relaxation_final, bind at 1. unfold emit at 1.
  unfold bind at 1.
  rewrite update_parameter_display_run
    by (apply has_display_app; exact Hs).
  unfold emit, final_events.
  cbn. rewrite vec3_eta, <- !app_assoc. reflexivity.
Qed.

(** Without the parameter display the final state raises once the arrow has
    been moved. *)
Lemma relaxation_final_raise (final_pos : vec3 F) (total_time dt : F)
    (s : scene F) :
  has_display (trace s) = false ->
  relaxation_final final_pos total_time dt s
  = (inl AttributeError,
     with_trace s (trace s ++ [ev_transform final_pos dt])).
Proof.
  intros Hs. unfold relaxation_final, bind at 1. unfold emit at 1.
  unfold bind at 1.
  rewrite update_parameter_display_raise; [reflexivity|].
  cbn [trace with_trace]. rewrite no_display_app by exact Hs. reflexivity.
Qed.

(** The loop of a run whose step count is [n]. *)
Lemma relaxation_loop_run (start_pos final_pos : vec3 F) (total_time dt : F)
    (n : Z) (s : scene F) :
  has_display (trace s) = true ->
  is_nonzero (T1 s) -> is_nonzero (T2 s) -> is_nonzero total_time -> is_nonzero dt ->
  to_int (total_time / dt) = inr n ->
  relaxation_loop lm start_pos final_pos total_time dt s
  = (inr tt,
     with_trace s
       (trace s ++
        flat_map (step_events start_pos final_pos total_time dt)
                 (step_indices n))).
Proof.
  intros Hs H1 H2 Ht Hd Hn. unfold relaxation_loop, bind at 1.
  rewrite (truediv_nonzero _ _ _ Hd). unfold bind, lift. rewrite Hn.
  unfold for_range. rewrite for_range_from_run by assumption.
  reflexivity.
Qed.

(** A run whose step count is not positive never enters the loop, whatever
    the duration and the relaxation times are. *)
Lemma relaxation_loop_skip (start_pos final_pos : vec3 F) (total_time dt : F)
    (n : Z) (s : scene F) :
  is_nonzero dt -> to_int (total_time / dt) = inr n -> (n <= 0)%Z ->
  relaxation_loop lm start_pos final_pos total_time dt s = (inr tt, s).
Proof.
  intros Hd Hn Hle. unfold relaxation_loop, bind at 1.
  rewrite (truediv_nonzero _ _ _ Hd). unfold bind, lift. rewrite Hn.
  unfold for_range.
  replace (Z.to_nat n) with 0%nat by lia. reflexivity.
Qed.

Lemma loop_sampler_closed_form (T1_ T2_ M0_ : F)
    (start_pos final_pos : vec3 F) (total_time dt : F) (n : Z) :
  is_nonzero T1_ -> is_nonzero T2_ -> is_nonzero total_time -> is_nonzero dt ->
  to_int (total_time / dt) = inr n ->
  loop_sampler lm T1_ T2_ M0_ start_pos final_pos total_time dt
  = (inr tt,
     map (step_sample start_pos final_pos total_time dt) (step_indices n)).
Proof.
  intros H1 H2 Ht Hd Hn. unfold loop_sampler.
  rewrite (relaxation_loop_run _ _ _ _ n) by (assumption || reflexivity).
  cbn [fst snd trace with_trace sampler_scene app samples].
  rewrite samples_steps. reflexivity.
Qed.

Lemma sampler_closed_form (T1_ T2_ M0_ : F)
    (start_pos final_pos : vec3 F) (total_time dt : F) (n : Z) :
  is_nonzero T1_ -> is_nonzero T2_ -> is_nonzero total_time -> is_nonzero dt ->
  to_int (total_time / dt) = inr n ->
  sampler lm T1_ T2_ M0_ start_pos final_pos total_time dt
  = (inr tt,
     map (step_sample start_pos final_pos total_time dt) (step_indices n)
     ++ [Sample final_pos total_time]).
Proof.
  intros H1 H2 Ht Hd Hn. unfold sampler, relaxation, bind.
  rewrite (relaxation_loop_run _ _ _ _ n) by (assumption || reflexivity).
  rewrite relaxation_final_run by reflexivity.
  cbn [fst snd trace with_trace sampler_scene app samples].
  rewrite samples_app, samples_steps. reflexivity.
Qed.

Lemma sampler_degenerate (T1_ T2_ M0_ : F)
    (start_pos final_pos : vec3 F) (total_time dt : F) (n : Z) :
  is_nonzero dt -> to_int (total_time / dt) = inr n -> (n <= 0)%Z ->
  sampler lm T1_ T2_ M0_ start_pos final_pos total_time dt
  = (inr tt, [Sample final_pos total_time]).
Proof.
  intros Hd Hn Hle. unfold sampler, relaxation, bind.
  rewrite (relaxation_loop_skip _ _ _ _ n) by assumption.
  rewrite relaxation_final_run by reflexivity. reflexivity.
Qed.

End Run.

(** ** The relaxation times and the exponentials do not reach the samples *)

Section Independence.

Context {F : Type} `{Number F}.
Variable lm : Libm F.

Local Open Scope num_scope.
Local Open Scope scene_scope.

Lemma relaxation_step_raise (start_pos final_pos : vec3 F)
    (total_time dt : F) (i : Z) (s : scene F) :
  is_nonzero (T1 s) -> is_nonzero (T2 s) -> (total_time =? of_int 0) = true ->
  relaxation_step lm start_pos final_pos total_time dt i s
  = (inl ZeroDivisionError, s).
Proof.
  intros H1 H2 Ht. unfold relaxation_step, bind, get.
  rewrite (truediv_nonzero _ _ _ H2), (truediv_nonzero _ _ _ H1),
    (truediv_zero _ _ _ Ht).
  reflexivity.
Qed.

Lemma relaxation_loop_zero_step (start_pos final_pos : vec3 F)
    (total_time dt : F) (s : scene F) :
  (dt =? of_int 0) = true ->
  relaxation_loop lm start_pos final_pos total_time dt s
  = (inl ZeroDivisionError, s).
Proof.
  intros Hd. unfold relaxation_loop, bind at 1.
  rewrite (truediv_zero _ _ _ Hd). reflexivity.
Qed.

Lemma relaxation_loop_no_count (start_pos final_pos : vec3 F)
    (total_time dt : F) (e : pyerr) (s : scene F) :
  is_nonzero dt -> to_int (total_time / dt) = inl e ->
  relaxation_loop lm start_pos final_pos total_time dt s = (inl e, s).
Proof.
  intros Hd He. unfold relaxation_loop, bind at 1.
  rewrite (truediv_nonzero _ _ _ Hd). unfold bind, lift. rewrite He.
  reflexivity.
Qed.

Lemma relaxation_loop_zero_duration (start_pos final_pos : vec3 F)
    (total_time dt : F) (n : Z) (k : nat) (s : scene F) :
  is_nonzero (T1 s) -> is_nonzero (T2 s) ->
  is_nonzero dt -> to_int (total_time / dt) = inr n -> Z.to_nat n = S k ->
  (total_time =? of_int 0) = true ->
  relaxation_loop lm start_pos final_pos total_time dt s
  = (inl ZeroDivisionError, s).
Proof.
  intros H1 H2 Hd Hn Hk Ht. unfold relaxation_loop, bind at 1.
  rewrite (truediv_nonzero _ _ _ Hd). unfold bind at 1, lift. rewrite Hn.
  unfold for_range. rewrite Hk. cbn [for_range_from]. unfold bind.
  rewrite relaxation_step_raise by assumption. reflexivity.
Qed.

(** With relaxation times that are not zero, the sampler is [trajectory]. *)
Lemma sampler_trajectory (T1_ T2_ M0_ : F) (start_pos final_pos : vec3 F)
    (total_time dt : F) :
  is_nonzero T1_ -> is_nonzero T2_ ->
  sampler lm T1_ T2_ M0_ start_pos final_pos total_time dt
  = trajectory start_pos final_pos total_time dt.
Proof.
  intros H1 H2. unfold trajectory.
  destruct (dt =? of_int 0) eqn:Hd.
  { unfold sampler, relaxation, bind.
    rewrite relaxation_loop_zero_step by assumption. reflexivity. }
  destruct (to_int (total_time / dt)) as [e|n] eqn:Hn.
  { unfold sampler, relaxation, bind.
    rewrite (relaxation_loop_no_count _ _ _ _ e) by assumption.
    reflexivity. }
  destruct (Z.to_nat n) as [|k] eqn:Hk.
  { apply (sampler_degenerate lm _ _ _ _ _ _ _ n); [assumption..|lia]. }
  destruct (total_time =? of_int 0) eqn:Ht.
  { unfold sampler, relaxation, bind.
    rewrite (relaxation_loop_zero_duration _ _ _ _ n k) by assumption.
    reflexivity. }
  apply sampler_closed_form; assumption.
Qed.

End Independence.

(** ** The equilibrium vector is assigned once *)

Section Equilibrium.

Context {F : Type} `{Number F}.
Variable lm : Libm F.

Local Open Scope num_scope.
Local Open Scope scene_scope.

Lemma keeps_ret {A} (a : A) : keeps_equilibrium (F := F) (ret a).
Proof. intros s. reflexivity. Qed.

Lemma keeps_raise {A} (e : pyerr) : keeps_equilibrium (F := F) (A := A) (raise e).
Proof. intros s. reflexivity. Qed.

Lemma keeps_lift {A} (r : pyerr + A) : keeps_equilibrium (F := F) (lift r).
Proof. intros s. reflexivity. Qed.

Lemma keeps_get {A} (f : scene F -> A) : keeps_equilibrium (get f).
Proof. intros s. reflexivity. Qed.

Lemma keeps_emit (e : event F) : keeps_equilibrium (emit e).
Proof. intros s. reflexivity. Qed.

Lemma keeps_bind {A B} (m : M F A) (k : A -> M F B) :
  keeps_equilibrium m -> (forall a, keeps_equilibrium (k a)) ->
  keeps_equilibrium (bind m k).
Proof.
  intros Hm Hk s. unfold bind. specialize (Hm s).
  destruct (m s) as [[e|a] s']; cbn [snd] in *; [assumption|].
  rewrite Hk. assumption.
Qed.

Lemma keeps_truediv (x y : F) : keeps_equilibrium (truediv x y).
Proof.
  unfold truediv. destruct (y =? of_int 0);
    [apply keeps_raise | apply keeps_ret].
Qed.

Lemma keeps_update_parameter_display (Mx My Mz t : F) :
  keeps_equilibrium (update_parameter_display Mx My Mz t).
Proof.
  unfold update_parameter_display.
  apply keeps_bind; [apply keeps_get|].
  intros shown. destruct (has_display shown);
    [apply keeps_emit | apply keeps_raise].
Qed.

Ltac keeps :=
  repeat first
    [ apply keeps_update_parameter_display
    | apply keeps_bind; [|intros ?]
    | apply keeps_truediv | apply keeps_emit | apply keeps_get
    | apply keeps_ret | apply keeps_raise | apply keeps_lift ].

Lemma keeps_relaxation_step (start_pos final_pos : vec3 F)
    (total_time dt : F) (i : Z) :
  keeps_equilibrium
    (relaxation_step lm start_pos final_pos total_time dt i).
Proof. unfold relaxation_step. keeps. Qed.

Lemma keeps_for_range_from (body : Z -> M F unit) (n : nat) :
  (forall i, keeps_equilibrium (body i)) ->
  forall i, keeps_equilibrium (for_range_from i n body).
Proof.
  intros Hb. induction n as [|n IH]; intros i; cbn [for_range_from].
  - apply keeps_ret.
  - apply keeps_bind; [apply Hb | intros _; apply IH].
Qed.

Lemma keeps_relaxation (start_pos final_pos : vec3 F) (total_time dt : F) :
  keeps_equilibrium (relaxation lm start_pos final_pos total_time dt).
Proof.
  unfold relaxation, relaxation_loop, relaxation_final, for_range.
  keeps. apply keeps_for_range_from. intros i.
  apply keeps_relaxation_step.
Qed.

Lemma keeps_relaxation_unset (total_time dt : F) :
  keeps_equilibrium (relaxation_unset (F := F) total_time dt).
Proof.
  unfold relaxation_unset. keeps.
  match goal with |- keeps_equilibrium (match ?x with _ => _ end) =>
    destruct x end; keeps.
Qed.

Lemma keeps_apply_rf_pulse_enhanced :
  keeps_equilibrium (F := F) apply_rf_pulse_enhanced.
Proof. unfold apply_rf_pulse_enhanced, create_parameter_display. keeps. Qed.

Lemma keeps_show_relaxation_enhanced :
  keeps_equilibrium (show_relaxation_enhanced lm).
Proof.
  unfold show_relaxation_enhanced. keeps.
  match goal with |- keeps_equilibrium (match ?x with _ => _ end) =>
    destruct x end; [apply keeps_relaxation | apply keeps_relaxation_unset].
Qed.

Lemma keeps_show_final_summary :
  keeps_equilibrium (F := F) show_final_summary.
Proof. unfold show_final_summary. keeps. Qed.

End Equilibrium.

(** ** Facts of binary64 arithmetic *)

Section Binary64_facts.

Lemma b64_positive_cases (x : float) :
  is_positive x ->
  Prim2SF x = S754_infinity false
  \/ exists m e, Prim2SF x = S754_finite false m e.
Proof.
  unfold is_positive. cbn [num_ltb of_int binary64]. rewrite ltb_spec.
  change (Prim2SF (float_of_int 0)) with (S754_zero false).
  destruct (Prim2SF x) as [s|s| |s m e]; try destruct s; cbn;
    try congruence; eauto.
Qed.

Lemma b64_positive_nonzero (x : float) : is_positive x -> is_nonzero x.
Proof.
  intros Hx. unfold is_nonzero. cbn [num_eqb of_int binary64].
  rewrite eqb_spec.
  change (Prim2SF (float_of_int 0)) with (S754_zero false).
  destruct (b64_positive_cases x Hx) as [->|(m & e & ->)]; reflexivity.
Qed.

(** Rounding keeps the sign it is given. *)
Lemma round_aux_sign (mx ex : Z) (lx : location) :
  match binary_round_aux prec emax false mx ex lx with
  | S754_finite s _ _ => s = false
  | _ => True
  end.
Proof.
  unfold binary_round_aux.
  destruct (shr_fexp prec emax mx ex lx) as [mrs' e'].
  destruct (shr_fexp prec emax _ e' loc_Exact) as [mrs'' e''].
  destruct (shr_m mrs''); trivial.
  destruct (Z.leb e'' (emax - prec)); trivial.
Qed.

Lemma b64_steps_nonneg (x y : float) (n : Z) :
  is_positive x -> is_positive y -> to_int (x / y)%num = inr n -> (0 <= n)%Z.
Proof.
  intros Hx Hy. cbn [to_int num_quot binary64]. unfold float_to_int.
  rewrite div_spec.
  destruct (b64_positive_cases x Hx) as [->|(mx & ex & ->)];
    destruct (b64_positive_cases y Hy) as [->|(my & ey & ->)]; cbn;
    try congruence.
  - intros E; inversion E; lia.
  - unfold SF64div, SFdiv.
    destruct (SFdiv_core_binary prec emax (Z.pos mx) ex (Z.pos my) ey)
      as [[mz ez] lz].
    cbn [xorb].
    pose proof (round_aux_sign mz ez lz) as Hs.
    destruct (binary_round_aux prec emax false mz ez lz) as [s|s| |s m e];
      try congruence.
    + intros E; inversion E; lia.
    + subst s. intros E; inversion E. apply Z.shiftl_nonneg. lia.
Qed.

(** *** Rounding a quotient below one

    The quotient of two floats [0 <= x < y] is at most [1 - 2^-53], which is
    a float, so its rounding stays below one and [int()] of it is [0].  The
    proof follows the division of [SpecFloat]: the integer quotient, the
    shifts that bring it to 53 digits, and the rounding to nearest even. *)

Local Open Scope Z_scope.

Lemma digits2_size (p : positive) : digits2_pos p = Pos.size p.
Proof. induction p; cbn; congruence. Qed.

Lemma digits2_log2 (p : positive) :
  Z.pos (digits2_pos p) = Z.succ (Z.log2 (Z.pos p)).
Proof.
  rewrite digits2_size. destruct p; cbn [Z.log2 Pos.size];
    rewrite ?Pos2Z.inj_succ; reflexivity.
Qed.

Lemma Zdigits2_nonneg (q : Z) : 0 <= q -> 0 <= Zdigits2 q.
Proof. destruct q; cbn; lia. Qed.

(** [q < 2^n] bounds the number of digits of [q] by [n]. *)
Lemma Zdigits2_le (q n : Z) : 0 <= q -> 0 <= n -> q < 2 ^ n -> Zdigits2 q <= n.
Proof.
  intros Hq Hn Hlt. destruct q as [|p|p]; cbn [Zdigits2]; [lia| |lia].
  rewrite digits2_log2. apply Z.le_succ_l.
  apply Z.log2_lt_pow2; lia.
Qed.

Lemma Zdigits2_ge (q n : Z) : 0 <= n -> 2 ^ n <= q -> n + 1 <= Zdigits2 q.
Proof.
  intros Hn Hle.
  assert (0 < 2 ^ n) by (apply Z.pow_pos_nonneg; lia).
  destruct q as [|p|p]; cbn [Zdigits2]; try lia.
  rewrite digits2_log2.
  assert (n <= Z.log2 (Z.pos p)) by (apply Z.log2_le_pow2; lia). lia.
Qed.

Lemma shr_1_m (mrs : shr_record) :
  0 <= shr_m mrs -> shr_m (shr_1 mrs) = shr_m mrs / 2.
Proof.
  destruct mrs as [m r s]. cbn [shr_m]. intros Hm.
  destruct m as [|[p|p|]|p]; cbn [shr_1 shr_m]; try lia.
  all: try reflexivity.
  - apply Z.div_unique with 1; lia.
  - apply Z.div_unique with 0; lia.
Qed.

Lemma pow2_xO (p : positive) :
  2 ^ Z.pos p~0 = 2 ^ Z.pos p * 2 ^ Z.pos p.
Proof. rewrite Pos2Z.inj_xO, <- Z.pow_add_r by lia. f_equal. lia. Qed.

Lemma pow2_xI (p : positive) :
  2 ^ Z.pos p~1 = 2 * (2 ^ Z.pos p * 2 ^ Z.pos p).
Proof.
  rewrite Pos2Z.inj_xI, <- Z.pow_add_r by lia.
  rewrite <- (Z.pow_succ_r 2) by lia. f_equal. lia.
Qed.

Lemma pow2_pos (n : Z) : 0 <= n -> 0 < 2 ^ n.
Proof. intros Hn. apply Z.pow_pos_nonneg; lia. Qed.

Lemma iter_shr_m (p : positive) : forall mrs : shr_record,
  0 <= shr_m mrs ->
  shr_m (iter_pos shr_1 p mrs) = shr_m mrs / 2 ^ Z.pos p.
Proof.
  induction p as [p IH|p IH|]; intros mrs Hm; cbn [iter_pos].
  - pose proof (pow2_pos (Z.pos p) ltac:(lia)) as Hp.
    assert (H1 : 0 <= shr_m (shr_1 mrs))
      by (rewrite shr_1_m by assumption; apply Z.div_pos; lia).
    assert (H2 : 0 <= shr_m (iter_pos shr_1 p (shr_1 mrs)))
      by (rewrite IH by assumption; apply Z.div_pos; lia).
    rewrite IH, IH, shr_1_m by assumption.
    rewrite !Z.div_div by lia. rewrite pow2_xI. reflexivity.
  - pose proof (pow2_pos (Z.pos p) ltac:(lia)) as Hp.
    assert (H2 : 0 <= shr_m (iter_pos shr_1 p mrs))
      by (rewrite IH by assumption; apply Z.div_pos; lia).
    rewrite IH, IH by assumption.
    rewrite !Z.div_div by lia. rewrite pow2_xO. reflexivity.
  - rewrite shr_1_m by assumption. reflexivity.
Qed.

(** Shifting out zeros only leaves an exact record. *)
Lemma iter_shr_exact (p : positive) : forall m : Z,
  0 <= m ->
  iter_pos shr_1 p (Build_shr_record (m * 2 ^ Z.pos p) false false)
  = Build_shr_record m false false.
Proof.
  assert (H1 : forall m, 0 <= m ->
             shr_1 (Build_shr_record (m * 2) false false)
             = Build_shr_record m false false).
  { intros m Hm. rewrite Z.mul_comm. destruct m as [|q|q]; try lia; reflexivity. }
  induction p as [p IH|p IH|]; intros m Hm; cbn [iter_pos].
  - pose proof (pow2_pos (Z.pos p) ltac:(lia)) as Hp.
    rewrite pow2_xI.
    replace (m * (2 * (2 ^ Z.pos p * 2 ^ Z.pos p)))
      with (m * 2 ^ Z.pos p * 2 ^ Z.pos p * 2) by lia.
    rewrite H1 by nia. rewrite IH by nia. apply IH. exact Hm.
  - pose proof (pow2_pos (Z.pos p) ltac:(lia)) as Hp.
    rewrite pow2_xO.
    replace (m * (2 ^ Z.pos p * 2 ^ Z.pos p))
      with (m * 2 ^ Z.pos p * 2 ^ Z.pos p) by lia.
    rewrite IH by nia. apply IH. exact Hm.
  - change (2 ^ 1) with 2. apply H1. exact Hm.
Qed.

Lemma shr_record_of_loc_m (m : Z) (l : location) :
  shr_m (shr_record_of_loc m l) = m.
Proof. destruct l as [|[| |]]; reflexivity. Qed.

(** One stage of shifting: the mantissa is divided, the exponent raised. *)
Lemma shr_stage (m e k : Z) (l : location) :
  0 <= m ->
  shr_m (fst (shr (shr_record_of_loc m l) e k)) = m / 2 ^ Z.max k 0
  /\ snd (shr (shr_record_of_loc m l) e k) = e + Z.max k 0.
Proof.
  intros Hm. destruct k as [|p|p]; cbn [shr fst snd].
  - rewrite shr_record_of_loc_m. change (2 ^ Z.max 0 0) with 1.
    rewrite Z.div_1_r. lia.
  - rewrite iter_shr_m by (rewrite shr_record_of_loc_m; exact Hm).
    rewrite shr_record_of_loc_m. replace (Z.max (Z.pos p) 0) with (Z.pos p) by lia.
    split; reflexivity.
  - rewrite shr_record_of_loc_m. replace (Z.max (Z.neg p) 0) with 0 by lia.
    change (2 ^ 0) with 1. rewrite Z.div_1_r. lia.
Qed.

Lemma shr_stage_exact (m e k : Z) :
  0 <= m -> 0 <= k ->
  loc_of_shr_record
    (fst (shr (shr_record_of_loc (m * 2 ^ k) loc_Exact) e k)) = loc_Exact.
Proof.
  intros Hm Hk. destruct k as [|p|p]; cbn [shr fst shr_record_of_loc]; try lia.
  - reflexivity.
  - rewrite iter_shr_exact by exact Hm. reflexivity.
Qed.

Lemma rne_bounds (m : Z) (l : location) :
  m <= round_nearest_even m l <= m + 1.
Proof.
  destruct l as [|[| |]]; cbn [round_nearest_even]; try lia.
  destruct (Z.even m); lia.
Qed.

Lemma pow2_split (a b : Z) : 0 <= a -> 0 <= b -> 2 ^ (a + b) = 2 ^ a * 2 ^ b.
Proof. intros. apply Z.pow_add_r; assumption. Qed.

(** After a stage, a mantissa below [2^(-e)] stays below [2^(-e')]. *)
Lemma stage_below (m e k : Z) :
  0 <= m -> 0 <= k -> e + k <= 0 -> m < 2 ^ (- e) ->
  m / 2 ^ k < 2 ^ (- (e + k)).
Proof.
  intros Hm Hk He Hlt.
  apply Z.div_lt_upper_bound; [apply pow2_pos; lia|].
  rewrite <- pow2_split by lia. replace (k + - (e + k)) with (- e) by lia.
  exact Hlt.
Qed.

Lemma fexp_nonpos (d : Z) : d <= 0 -> fexp prec emax d <= -53.
Proof. unfold fexp, emin, prec, emax. lia. Qed.

Lemma round_aux_below_one (q e' : Z) (loc : location) :
  0 <= q -> e' <= -53 -> q < 2 ^ (- e') ->
  (q / 2 ^ (-53 - e') = 2 ^ 53 - 1 ->
   q = (2 ^ 53 - 1) * 2 ^ (-53 - e') /\ loc = loc_Exact) ->
  match binary_round_aux prec emax false q e' loc with
  | S754_zero _ => True
  | S754_finite _ m e => Z.shiftl (Z.pos m) e = 0
  | _ => False
  end.
Proof.
  intros Hq He Hlt Hfine.
  unfold binary_round_aux, shr_fexp.
  pose proof (Zdigits2_nonneg q Hq) as Hd0.
  pose proof (Zdigits2_le q (- e') Hq ltac:(lia) Hlt) as Hd1.
  set (E1 := fexp prec emax (Zdigits2 q + e')).
  assert (HE1 : E1 <= -53) by (apply fexp_nonpos; lia).
  set (k1 := Z.max (E1 - e') 0).
  destruct (shr_stage q e' (E1 - e') loc Hq) as [Hm1 He1].
  fold k1 in Hm1, He1.
  destruct (shr (shr_record_of_loc q loc) e' (E1 - e')) as [mrs' e1] eqn:Hs1.
  cbn [fst snd] in Hm1, He1.
  assert (Hk1 : 0 <= k1) by lia.
  assert (He1' : e1 <= -53) by lia.
  assert (Hm1lt : shr_m mrs' < 2 ^ (- e1)).
  { rewrite Hm1, He1. apply stage_below; lia. }
  assert (Hm1nn : 0 <= shr_m mrs').
  { rewrite Hm1. apply Z.div_pos; [lia | apply pow2_pos; lia]. }
  set (mr := round_nearest_even (shr_m mrs') (loc_of_shr_record mrs')).
  assert (Hmr : 0 <= mr < 2 ^ (- e1)).
  { pose proof (rne_bounds (shr_m mrs') (loc_of_shr_record mrs')) as Hb.
    fold mr in Hb. split; [lia|].
    destruct (Z.eq_dec (shr_m mrs') (2 ^ (- e1) - 1)) as [Heq|Hne]; [|lia].
    (* the mantissa is all ones: the quotient was exact *)
    assert (Hpow : 2 ^ (- e1) = 2 * 2 ^ (- e1 - 1))
      by (rewrite <- Z.pow_succ_r by lia; f_equal; lia).
    assert (Hge : 2 ^ (- e' - 1) <= q).
    { assert (Hmul : shr_m mrs' * 2 ^ k1 <= q).
      { rewrite Hm1. rewrite Z.mul_comm.
        apply Z.mul_div_le. apply pow2_pos; lia. }
      replace (- e' - 1) with ((- e1 - 1) + k1) by lia.
      rewrite pow2_split by lia.
      pose proof (pow2_pos k1 Hk1). pose proof (pow2_pos (- e1 - 1) ltac:(lia)).
      nia. }
    pose proof (Zdigits2_ge q (- e' - 1) ltac:(lia) Hge) as Hd2.
    assert (Hdq : Zdigits2 q + e' = 0) by lia.
    assert (HE1eq : E1 = -53).
    { unfold E1. rewrite Hdq. reflexivity. }
    assert (Hk1eq : k1 = -53 - e') by lia.
    assert (He1eq : e1 = -53) by lia.
    rewrite He1eq in Heq. change (2 ^ (- -53) - 1) with (2 ^ 53 - 1) in Heq.
    rewrite Hm1, Hk1eq in Heq.
    destruct (Hfine Heq) as [Hqeq Hloc]. clear Hfine. subst loc.
    assert (Hexact : loc_of_shr_record mrs' = loc_Exact).
    { pose proof (shr_stage_exact (2 ^ 53 - 1) e' (-53 - e') ltac:(lia)
                    ltac:(lia)) as Hx.
      rewrite <- Hqeq in Hx.
      replace (-53 - e') with (E1 - e') in Hx by lia.
      rewrite Hs1 in Hx. exact Hx. }
    unfold mr. rewrite Hexact. cbn [round_nearest_even]. lia. }
  destruct Hmr as [Hmr0 Hmrlt].
  pose proof (Zdigits2_le mr (- e1) Hmr0 ltac:(lia) Hmrlt) as Hdr.
  pose proof (Zdigits2_nonneg mr Hmr0) as Hdr0.
  set (E2 := fexp prec emax (Zdigits2 mr + e1)).
  assert (HE2 : E2 <= -53) by (apply fexp_nonpos; lia).
  destruct (shr_stage mr e1 (E2 - e1) loc_Exact Hmr0) as [Hm2 He2].
  destruct (shr (shr_record_of_loc mr loc_Exact) e1 (E2 - e1)) as [mrs'' e2].
  cbn [fst snd] in Hm2, He2.
  assert (He2' : e2 <= -53) by lia.
  assert (Hm2lt : shr_m mrs'' < 2 ^ (- e2)).
  { rewrite Hm2, He2. apply stage_below; lia. }
  assert (Hm2nn : 0 <= shr_m mrs'').
  { rewrite Hm2. apply Z.div_pos; [lia | apply pow2_pos; lia]. }
  destruct (shr_m mrs'') as [|m|m]; [trivial| |lia].
  replace (Z.leb e2 (emax - prec)) with true
    by (symmetry; apply Z.leb_le; unfold emax, prec; lia).
  rewrite Z.shiftl_div_pow2 by lia. apply Z.div_small. lia.
Qed.

Lemma digits2_bounds (m : positive) :
  2 ^ (Z.pos (digits2_pos m) - 1) <= Z.pos m < 2 ^ Z.pos (digits2_pos m).
Proof.
  rewrite digits2_log2.
  replace (Z.succ (Z.log2 (Z.pos m)) - 1) with (Z.log2 (Z.pos m)) by lia.
  apply Z.log2_spec. lia.
Qed.

Lemma bounded_cases (m : positive) (e : Z) :
  bounded prec emax m e = true ->
  Z.pos (digits2_pos m) <= 53 /\ -1074 <= e
  /\ (Z.pos (digits2_pos m) = 53 \/ e = -1074).
Proof.
  unfold bounded, canonical_mantissa, fexp, emin, prec, emax.
  intros Hb. apply andb_prop in Hb. destruct Hb as [Hc _].
  apply Z.eqb_eq in Hc. lia.
Qed.

Lemma new_location_zero (m : Z) : new_location m 0 = loc_Exact.
Proof. unfold new_location. destruct (Z.even m); reflexivity. Qed.

Lemma shift_align (m s : Z) :
  0 <= s ->
  match s with
  | 0 => m
  | Z.pos _ => Z.shiftl m s
  | Z.neg _ => 0
  end = m * 2 ^ s.
Proof.
  intros Hs. destruct s as [|p|p]; [|apply Z.shiftl_mul_pow2; lia|lia].
  change (2 ^ 0) with 1. lia.
Qed.

Lemma SFdiv_below_one (mx my : positive) (ex ey : Z) :
  bounded prec emax mx ex = true -> bounded prec emax my ey = true ->
  SFltb (S754_finite false mx ex) (S754_finite false my ey) = true ->
  match SFdiv prec emax (S754_finite false mx ex) (S754_finite false my ey) with
  | S754_zero _ => True
  | S754_finite _ m e => Z.shiftl (Z.pos m) e = 0
  | _ => False
  end.
Proof.
  intros Bx By Hlt.
  destruct (bounded_cases mx ex Bx) as (Hd1 & Hex & Hnx).
  destruct (bounded_cases my ey By) as (Hd2 & Hey & Hny).
  pose proof (digits2_bounds mx) as Hmx.
  pose proof (digits2_bounds my) as Hmy.
  set (d1 := Z.pos (digits2_pos mx)) in *.
  set (d2 := Z.pos (digits2_pos my)) in *.
  assert (Hcmp : ex < ey \/ (ex = ey /\ Z.pos mx < Z.pos my)).
  { unfold SFltb, SFcompare in Hlt.
    destruct (Z.compare_spec ex ey) as [E|L|G]; [|left; exact L|discriminate].
    right. split; [exact E|].
    change (Pos.compare_cont Eq mx my) with (Pos.compare mx my) in Hlt.
    destruct (Pos.compare_spec mx my); try discriminate. lia. }
  assert (HP : 2 ^ 53 = 9007199254740992) by reflexivity.
  assert (Hmx53 : Z.pos mx < 2 ^ 53).
  { apply Z.lt_le_trans with (2 ^ d1); [lia|].
    apply Z.pow_le_mono_r; lia. }
  assert (Hmy53 : Z.pos my < 2 ^ 53).
  { apply Z.lt_le_trans with (2 ^ d2); [lia|].
    apply Z.pow_le_mono_r; lia. }
  assert (Hdelta : d1 + ex - (d2 + ey) <= 0).
  { destruct Hcmp as [L|[E L]]; [lia|].
    assert (d1 <= d2); [|lia].
    unfold d1. change (Z.pos (digits2_pos mx)) with (Zdigits2 (Z.pos mx)).
    apply Zdigits2_le; lia. }
  unfold SFdiv, SFdiv_core_binary. cbn [xorb Zdigits2]. fold d1 d2.
  set (e' := Z.min (fexp prec emax (d1 + ex - (d2 + ey))) (ex - ey)).
  assert (He' : e' <= -53).
  { pose proof (fexp_nonpos _ Hdelta). unfold e'. lia. }
  assert (He'2 : e' <= ex - ey) by (unfold e'; lia).
  set (s := ex - ey - e').
  assert (Hs : 0 <= s) by (unfold s; lia).
  set (m' := match s with
             | 0 => Z.pos mx
             | Z.pos _ => Z.shiftl (Z.pos mx) s
             | Z.neg _ => 0
             end).
  assert (Hm' : m' = Z.pos mx * 2 ^ s).
  { unfold m'. apply shift_align. exact Hs. }
  clearbody m'.
  set (t := - e').
  assert (Ht : 53 <= t) by (unfold t; lia).
  assert (Hpt : 2 ^ t = 2 ^ (t - 53) * 2 ^ 53).
  { rewrite <- pow2_split by lia. f_equal. lia. }
  pose proof (pow2_pos (t - 53) ltac:(lia)) as Hpk.
  assert (I12 : m' < Z.pos my * 2 ^ t
                /\ m' * 2 ^ 53 <= Z.pos my * 2 ^ t * (2 ^ 53 - 1)).
  { rewrite Hm'. destruct Hcmp as [L|[E L]].
    - (* the divisor is in a higher binade, hence normal *)
      assert (Hd2eq : d2 = 53) by lia.
      assert (Hmy52 : 2 ^ 52 <= Z.pos my) by (rewrite Hd2eq in Hmy; apply Hmy).
      set (g := ey - ex). assert (Hg : 1 <= g) by (unfold g; lia).
      assert (Hst : t = s + g) by (unfold s, t, g; lia).
      rewrite Hst, pow2_split by lia.
      pose proof (pow2_pos s Hs) as Hps.
      assert (Hpg : 2 <= 2 ^ g).
      { change 2 with (2 ^ 1) at 1. apply Z.pow_le_mono_r; lia. }
      assert (H52 : 2 ^ 52 = 4503599627370496) by reflexivity.
      assert (Hbig : 2 ^ 53 <= Z.pos my * 2 ^ g) by nia.
      split.
      + replace (Z.pos my * (2 ^ s * 2 ^ g))
          with (Z.pos my * 2 ^ g * 2 ^ s) by ring.
        apply Z.mul_lt_mono_pos_r; lia.
      + replace (Z.pos mx * 2 ^ s * 2 ^ 53)
          with (Z.pos mx * 2 ^ 53 * 2 ^ s) by ring.
        replace (Z.pos my * (2 ^ s * 2 ^ g) * (2 ^ 53 - 1))
          with (Z.pos my * 2 ^ g * (2 ^ 53 - 1) * 2 ^ s) by ring.
        apply Z.mul_le_mono_nonneg_r; [lia|].
        nia.
    - assert (Hst : s = t) by (unfold s, t; lia).
      rewrite Hst. pose proof (pow2_pos t ltac:(lia)) as Hptp.
      split.
      + apply Z.mul_lt_mono_pos_r; lia.
      + replace (Z.pos mx * 2 ^ t * 2 ^ 53)
          with (Z.pos mx * 2 ^ 53 * 2 ^ t) by ring.
        replace (Z.pos my * 2 ^ t * (2 ^ 53 - 1))
          with (Z.pos my * (2 ^ 53 - 1) * 2 ^ t) by ring.
        apply Z.mul_le_mono_nonneg_r; [lia|]. nia. }
  destruct I12 as [I1 I2].
  pose proof (Z_div_mod m' (Z.pos my) ltac:(lia)) as Hdm.
  destruct (Z.div_eucl m' (Z.pos my)) as [q r].
  destruct Hdm as [Hqr Hr].
  assert (Hm'0 : 0 <= m').
  { rewrite Hm'. pose proof (pow2_pos s Hs). nia. }
  assert (Hq0 : 0 <= q) by nia.
  apply round_aux_below_one.
  - exact Hq0.
  - exact He'.
  - fold t. pose proof (pow2_pos t ltac:(lia)). nia.
  - fold t. replace (-53 - e') with (t - 53) by (unfold t; lia).
    intros Hall.
    assert (Hge : (2 ^ 53 - 1) * 2 ^ (t - 53) <= q).
    { rewrite <- Hall. rewrite Z.mul_comm. apply Z.mul_div_le. lia. }
    assert (Hup : m' <= Z.pos my * 2 ^ (t - 53) * (2 ^ 53 - 1)).
    { rewrite Hpt in I2. rewrite HP in *. nia. }
    assert (Hr0 : r = 0) by nia.
    assert (Hqeq : q = (2 ^ 53 - 1) * 2 ^ (t - 53)) by nia.
    split; [exact Hqeq|].
    rewrite Hr0. apply new_location_zero.
Qed.

(** A binary64 duration that is not negative and lies below the step gives a
    step count of zero. *)
Lemma b64_no_step (x y : float) :
  (of_int 0 <=? x)%num = true -> (x <? y)%num = true ->
  to_int (x / y)%num = inr 0.
Proof.
  cbn [num_leb num_ltb num_quot to_int of_int binary64].
  rewrite leb_spec, ltb_spec.
  change (Prim2SF (float_of_int 0)) with (S754_zero false).
  unfold float_to_int. rewrite div_spec.
  pose proof (Prim2SF_valid x) as Vx. pose proof (Prim2SF_valid y) as Vy.
  destruct (Prim2SF x) as [sx|sx| |sx mx ex];
    destruct (Prim2SF y) as [sy|sy| |sy my ey];
    try destruct sx; try destruct sy;
    try solve [cbn; discriminate | cbn; reflexivity | cbn; intros; discriminate].
  intros _ Hlt. cbn [valid_binary] in Vx, Vy.
  pose proof (SFdiv_below_one mx my ex ey Vx Vy Hlt) as Hdiv.
  unfold SF64div.
  destruct (SFdiv prec emax (S754_finite false mx ex) (S754_finite false my ey))
    as [s|s| |s m e]; try contradiction.
  - reflexivity.
  - rewrite Hdiv. destruct s; reflexivity.
Qed.

Lemma b64_above_nonneg_positive (x y : float) :
  (of_int 0 <=? x)%num = true -> (x <? y)%num = true -> is_positive y.
Proof.
  unfold is_positive. cbn [num_leb num_ltb of_int binary64].
  rewrite leb_spec, !ltb_spec.
  change (Prim2SF (float_of_int 0)) with (S754_zero false).
  destruct (Prim2SF x) as [sx|sx| |sx mx ex];
    destruct (Prim2SF y) as [sy|sy| |sy my ey];
    try destruct sx; try destruct sy; cbn; congruence.
Qed.

Local Close Scope Z_scope.

Lemma b64_laws : NumberLaws float.
Proof.
  split; [exact b64_positive_nonzero | exact b64_steps_nonneg
         | exact b64_above_nonneg_positive | exact b64_no_step].
Qed.

(** A finite float that is not zero, divided by itself, is exactly one. *)
Lemma b64_quot_self (x : float) :
  is_finite x = true -> is_nonzero x -> (x / x)%float = 1%float.
Proof.
  unfold is_finite, is_nonzero. cbn [num_eqb of_int binary64].
  rewrite eqb_spec. change (Prim2SF (float_of_int 0)) with (S754_zero false).
  intros Hf Hn. apply Prim2SF_inj. rewrite div_spec.
  destruct (Prim2SF x) as [s|s| |s m e]; cbn in Hf, Hn; try discriminate.
  change (Prim2SF 1) with (S754_finite false 4503599627370496 (-52)).
  unfold SF64div, SFdiv, SFdiv_core_binary.
  replace (Zdigits2 (Z.pos m) + e - (Zdigits2 (Z.pos m) + e))%Z with 0%Z
    by lia.
  replace (e - e)%Z with 0%Z by lia.
  change (Z.min (fexp prec emax 0) 0) with (-53)%Z.
  change (0 - (-53))%Z with 53%Z. cbv iota.
  assert (Hdiv : Z.div_eucl (Z.shiftl (Z.pos m) 53) (Z.pos m)
                 = (9007199254740992, 0)%Z).
  { rewrite Z.shiftl_mul_pow2 by lia.
    transitivity ((Z.pos m * 2 ^ 53) / Z.pos m,
                  (Z.pos m * 2 ^ 53) mod Z.pos m)%Z.
    - unfold Z.div, Z.modulo.
      destruct (Z.div_eucl (Z.pos m * 2 ^ 53) (Z.pos m)); reflexivity.
    - rewrite (Z.mul_comm (Z.pos m)), Z.div_mul, Z.mod_mul by lia.
      reflexivity. }
  rewrite Hdiv.
  assert (Hloc : new_location (Z.pos m) 0 = loc_Exact).
  { unfold new_location. destruct (Z.even (Z.pos m)); reflexivity. }
  rewrite Hloc. destruct s; reflexivity.
Qed.

(** Zero divided by a positive float is zero, so [int()] of it is [0]. *)
Lemma b64_zero_quot (x y : float) :
  (x =? of_int 0)%num = true -> is_positive y ->
  to_int (x / y)%num = inr 0%Z.
Proof.
  cbn [num_eqb num_quot to_int of_int binary64].
  rewrite eqb_spec. change (Prim2SF (float_of_int 0)) with (S754_zero false).
  intros Hx Hy. unfold float_to_int. rewrite div_spec.
  destruct (b64_positive_cases y Hy) as [->|(my & ey & ->)];
    destruct (Prim2SF x) as [s|s| |s m e];
    try (destruct s; discriminate); try discriminate; reflexivity.
Qed.

Lemma digits2_shift52 (m : BinNums.positive) :
  Z.pos (digits2_pos (4503599627370496 * m)) = (Z.pos (digits2_pos m) + 52)%Z.
Proof. cbn [Pos.mul digits2_pos]. rewrite !Pos2Z.inj_succ. lia. Qed.

(** One times a float is that float, exactly. *)
Lemma b64_one_mul (x : float) : (1 * x)%float = x.
Proof.
  apply Prim2SF_inj. rewrite mul_spec.
  change (Prim2SF 1) with (S754_finite false 4503599627370496 (-52)).
  pose proof (Prim2SF_valid x) as V.
  destruct (Prim2SF x) as [s|s| |s m e]; try reflexivity.
  cbn [valid_binary] in V. unfold bounded, canonical_mantissa in V.
  apply andb_prop in V. destruct V as [V1 V2].
  apply Z.eqb_eq in V1.
  unfold SF64mul, SFmul. cbn [xorb].
  unfold binary_round_aux, shr_fexp.
  cbn [Zdigits2 shr_record_of_loc]. rewrite digits2_shift52.
  replace (Z.pos (digits2_pos m) + 52 + (-52 + e))%Z
    with (Z.pos (digits2_pos m) + e)%Z by lia.
  rewrite V1.
  replace (e - (-52 + e))%Z with 52%Z by lia.
  cbn [Pos.mul shr iter_pos shr_1 orb shr_m loc_of_shr_record
       round_nearest_even].
  replace (-52 + e + 52)%Z with e by lia.
  cbn [Zdigits2]. rewrite V1, Z.sub_diag. cbn [shr shr_m].
  rewrite V2. reflexivity.
Qed.

(** Zero times a float is a zero or a NaN, never a positive number. *)
Lemma b64_zero_mul_not_positive (y : float) : ~ is_positive (0 * y)%float.
Proof.
  unfold is_positive. cbn [num_ltb of_int binary64].
  rewrite ltb_spec, mul_spec.
  change (Prim2SF (float_of_int 0)) with (S754_zero false).
  change (Prim2SF 0) with (S754_zero false).
  destruct (Prim2SF y) as [s|s| |s m e]; cbn; try destruct s; discriminate.
Qed.

(** [(1 - 1) * s + 1 * f] is [f] itself when [s] is finite and [f] is not
    [-0.0]: the first product is a zero, and a zero added to [f] is [f]. *)
Lemma b64_lerp_one_coord (s f : float) :
  is_finite s = true -> is_neg_zero f = false ->
  ((1 - 1) * s + 1 * f)%float = f.
Proof.
  unfold is_finite, is_neg_zero. intros Hs Hf.
  rewrite b64_one_mul. change (1 - 1)%float with 0%float.
  apply Prim2SF_inj. rewrite add_spec, mul_spec.
  change (Prim2SF 0) with (S754_zero false).
  destruct (Prim2SF s) as [ss|ss| |ss ms es]; try discriminate;
    destruct (Prim2SF f) as [sf|sf| |sf mf ef];
    try destruct ss; try destruct sf; try discriminate; reflexivity.
Qed.

Lemma b64_lerp_one (start_pos final_pos : vec3 float) :
  finite_vec start_pos = true -> no_neg_zero final_pos = true ->
  lerp start_pos final_pos 1%float = final_pos.
Proof.
  unfold finite_vec, no_neg_zero. intros Hs Hf.
  apply andb_prop in Hs. destruct Hs as [Hs Hsz].
  apply andb_prop in Hs. destruct Hs as [Hsx Hsy].
  apply andb_prop in Hf. destruct Hf as [Hf Hfz].
  apply andb_prop in Hf. destruct Hf as [Hfx Hfy].
  apply negb_true_iff in Hfx, Hfy, Hfz.
  destruct start_pos as [sx sy sz], final_pos as [fx fy fz].
  cbn [vx vy vz] in *.
  unfold lerp, vadd, scale.
  cbn [vx vy vz num_add num_sub num_mul of_int binary64].
  change (float_of_int 1) with 1%float.
  rewrite !b64_lerp_one_coord by assumption. reflexivity.
Qed.

End Binary64_facts.

#[export] Existing Instance b64_laws.

(** ** Facts of exact arithmetic *)

Section Exact_facts.

Local Open Scope Qc_scope.

(** Moving a statement on [Qc] to [Q]. *)
Lemma this_plus (x y : Qc) : (this (x + y) == this x + this y)%Q.
Proof. apply Qred_correct. Qed.

Lemma this_mult (x y : Qc) : (this (x * y) == this x * this y)%Q.
Proof. apply Qred_correct. Qed.

Lemma this_minus (x y : Qc) : (this (x - y) == this x - this y)%Q.
Proof.
  unfold Qcminus. rewrite this_plus. unfold Qcopp. cbn [this Q2Qc].
  rewrite Qred_correct. reflexivity.
Qed.

Lemma this_div (x y : Qc) : (this (x / y) == this x / this y)%Q.
Proof.
  unfold Qcdiv. rewrite this_mult. unfold Qcinv. cbn [this Q2Qc].
  rewrite Qred_correct. reflexivity.
Qed.

Lemma this_of_int (z : Z) : (this (of_int z) == inject_Z z)%Q.
Proof. apply Qred_correct. Qed.

Lemma exact_ltb (x y : Qc) : (x <? y)%num = true <-> x < y.
Proof.
  cbn [num_ltb exact]. unfold Qc_ltb, Qclt, Qccompare, Qlt.
  rewrite <- Z.compare_lt_iff. unfold Qcompare.
  destruct (Z.compare _ _); split; congruence.
Qed.

Lemma exact_leb (x y : Qc) : (x <=? y)%num = true <-> x <= y.
Proof.
  cbn [num_leb exact]. unfold Qc_leb, Qcle, Qccompare, Qle.
  rewrite <- Z.compare_le_iff. unfold Qcompare.
  destruct (Z.compare _ _); split; congruence.
Qed.

Lemma exact_eqb (x y : Qc) : (x =? y)%num = true <-> x = y.
Proof.
  cbn [num_eqb exact]. unfold Qc_eq_bool.
  destruct (Qc_eq_dec x y); split; congruence.
Qed.

Lemma exact_eqb_false (x y : Qc) : (x =? y)%num = false <-> x <> y.
Proof.
  cbn [num_eqb exact]. unfold Qc_eq_bool.
  destruct (Qc_eq_dec x y); split; congruence.
Qed.

Lemma exact_of_int_0 : of_int 0 = 0.
Proof. apply Qc_is_canon. reflexivity. Qed.

Lemma exact_of_int_1 : of_int 1 = 1.
Proof. apply Qc_is_canon. reflexivity. Qed.

Lemma exact_positive (x : Qc) : is_positive x <-> 0 < x.
Proof. unfold is_positive. rewrite exact_ltb, exact_of_int_0. reflexivity. Qed.

Lemma exact_nonzero (x : Qc) : is_nonzero x <-> x <> 0.
Proof.
  unfold is_nonzero. rewrite exact_eqb_false, exact_of_int_0. reflexivity.
Qed.

Lemma exact_positive_nonzero (x : Qc) : is_positive x -> is_nonzero x.
Proof.
  rewrite exact_positive, exact_nonzero. intros Hx E. subst x.
  exact (Qclt_not_eq _ _ Hx eq_refl).
Qed.

Lemma exact_of_int_le (a b : Z) : (a <= b)%Z -> of_int a <= of_int b.
Proof.
  intros Hab. unfold Qcle. rewrite !this_of_int, <- Zle_Qle. exact Hab.
Qed.

Lemma exact_of_int_lt (a b : Z) : (a < b)%Z -> of_int a < of_int b.
Proof.
  intros Hab. unfold Qclt. rewrite !this_of_int, <- Zlt_Qlt. exact Hab.
Qed.

(** [int()] of a rational that is not negative is its floor. *)
Lemma exact_to_int_floor (q : Qc) : 0 <= q -> to_int q = inr (Qfloor q).
Proof.
  intros Hq. cbn [to_int exact]. f_equal.
  destruct q as [[n d] c]. cbn [this Qnum Qden Qfloor].
  apply Z.quot_div_nonneg; [|lia].
  unfold Qcle, Qle in Hq. cbn in Hq. lia.
Qed.

Lemma exact_to_int_bounds (q : Qc) (n : Z) :
  0 <= q -> to_int q = inr n -> of_int n <= q /\ q < of_int (n + 1).
Proof.
  intros Hq. rewrite exact_to_int_floor by assumption.
  intros E. inversion E; subst n. unfold Qcle, Qclt.
  rewrite !this_of_int. split; [apply Qfloor_le | apply Qlt_floor].
Qed.

Lemma exact_quot_mul (x y : Qc) : y <> 0 -> x / y * y = x.
Proof. intros Hy. field. exact Hy. Qed.

Lemma exact_quot_nonneg (x y : Qc) : 0 <= x -> 0 < y -> 0 <= x / y.
Proof.
  intros Hx Hy. unfold Qcle, Qclt in *. rewrite this_div.
  change (this 0) with 0%Q in *.
  apply Qle_shift_div_l; [assumption|]. lra.
Qed.

(** The step count of the exact run is the floor of the quotient. *)
Lemma exact_step_count (total_time dt : Qc) :
  is_positive total_time -> is_positive dt ->
  to_int (total_time / dt)%num = inr (Qfloor (this total_time / this dt)%Q).
Proof.
  intros Ht Hd. apply exact_positive in Ht, Hd.
  rewrite <- (Qfloor_comp _ _ (this_div total_time dt)).
  apply exact_to_int_floor.
  apply exact_quot_nonneg; [apply Qclt_le_weak|]; assumption.
Qed.

Lemma exact_steps_nonneg (x y : Qc) (n : Z) :
  is_positive x -> is_positive y -> to_int (x / y)%num = inr n -> (0 <= n)%Z.
Proof.
  rewrite !exact_positive. intros Hx Hy. cbn [num_quot exact].
  assert (Hq : 0 <= x / y)
    by (apply exact_quot_nonneg; [apply Qclt_le_weak|]; assumption).
  rewrite exact_to_int_floor by assumption.
  intros E. inversion E as [E'].
  change 0%Z with (Qfloor 0). apply Qfloor_resp_le. exact Hq.
Qed.

Lemma exact_inv_nonneg (x : Qc) : 0 < x -> 0 <= / x.
Proof.
  unfold Qcle, Qclt, Qcinv. intros Hx. change (this (Q2Qc (/ x))) with (Qred (/ x)).
  rewrite Qred_correct. apply Qlt_le_weak, Qinv_lt_0_compat. exact Hx.
Qed.

Lemma exact_of_int_lt_inv (a b : Z) : of_int a < of_int b -> (a < b)%Z.
Proof. unfold Qclt. rewrite !this_of_int, <- Zlt_Qlt. trivial. Qed.

Lemma exact_quot_lt_1 (x y : Qc) : 0 < y -> x < y -> x / y < 1.
Proof.
  unfold Qclt. intros Hy Hxy. rewrite this_div.
  change (this 0) with 0%Q in Hy. change (this 1) with 1%Q.
  apply Qlt_shift_div_r; [exact Hy|]. rewrite Qmult_1_l. exact Hxy.
Qed.

(** A duration below the step gives a step count of zero. *)
Lemma exact_no_step (total_time dt : Qc) :
  0 <= total_time -> total_time < dt ->
  to_int (total_time / dt)%num = inr 0%Z.
Proof.
  intros Ht Hlt.
  assert (Hd : 0 < dt) by (apply Qcle_lt_trans with total_time; assumption).
  assert (Hq : 0 <= total_time / dt) by (apply exact_quot_nonneg; assumption).
  assert (Hq1 : total_time / dt < 1) by (apply exact_quot_lt_1; assumption).
  cbn [num_quot exact].
  destruct (to_int (total_time / dt)) as [e|n] eqn:Hn;
    [cbn in Hn; discriminate|].
  destruct (exact_to_int_bounds _ _ Hq Hn) as [Hlo Hhi].
  assert (n < 1)%Z.
  { apply exact_of_int_lt_inv. rewrite exact_of_int_1.
    apply Qcle_lt_trans with (total_time / dt); assumption. }
  assert (0 < n + 1)%Z.
  { apply exact_of_int_lt_inv. rewrite exact_of_int_0.
    apply Qcle_lt_trans with (total_time / dt); assumption. }
  f_equal. lia.
Qed.

Lemma exact_above_nonneg_positive (x y : Qc) :
  (of_int 0 <=? x)%num = true -> (x <? y)%num = true -> is_positive y.
Proof.
  rewrite exact_leb, exact_ltb, exact_positive, exact_of_int_0.
  apply Qcle_lt_trans.
Qed.

Lemma exact_no_step_laws (x y : Qc) :
  (of_int 0 <=? x)%num = true -> (x <? y)%num = true ->
  to_int (x / y)%num = inr 0%Z.
Proof.
  rewrite exact_leb, exact_ltb, exact_of_int_0. apply exact_no_step.
Qed.

Lemma exact_laws : NumberLaws Qc.
Proof.
  split; [exact exact_positive_nonzero | exact exact_steps_nonneg
         | exact exact_above_nonneg_positive | exact exact_no_step_laws].
Qed.

End Exact_facts.

#[export] Existing Instance exact_laws.

(** ** The claims about the trajectory *)

Section Indices.

Lemma step_indices_length (n : Z) : length (step_indices n) = Z.to_nat n.
Proof. unfold step_indices. rewrite length_map, length_seq. reflexivity. Qed.

Lemma step_indices_nth (n i : Z) :
  (1 <= i <= n)%Z -> nth_error (step_indices n) (Z.to_nat (i - 1)) = Some i.
Proof.
  intros Hi. unfold step_indices.
  rewrite nth_error_map, nth_error_seq.
  destruct (Nat.ltb_spec (Z.to_nat (i - 1)) (Z.to_nat n)) as [_|Hge]; [|lia].
  cbn [option_map]. f_equal. lia.
Qed.

Lemma step_indices_range (n i : Z) :
  In i (step_indices n) <-> (1 <= i <= n)%Z.
Proof.
  unfold step_indices. rewrite in_map_iff. split.
  - intros (k & <- & Hk). apply in_seq in Hk. lia.
  - intros Hi. exists (Z.to_nat i). split; [lia|]. apply in_seq. lia.
Qed.

End Indices.

(** C1, as the code has it.  For relaxation times, a duration and a step
    that are positive, with the step at most the duration, the loop returns
    and displays exactly [n] samples, [n] being the step count, and for
    every [i] from 1 to [n] the [i]-th of them has time [i * dt] and position
    [(1 - alpha) * start + alpha * end], component by component, with
    [alpha = (i * dt) / total_time], the linear fraction.  In any arithmetic
    the step count is what [int()] makes of the quotient [total_time / dt],
    the quotient and every operation of the formula being the arithmetic's
    own (rounded, in binary64).  In exact arithmetic the step count is
    [floor(total_time / dt)].  The binary64 loop of the testing run, a
    duration of 0.3 in steps of 0.05, has 5 steps, and its samples are
    listed in numbers. *)
Theorem C1_loop_samples_linear :
  (forall (F : Type) (N : Number F) (L : NumberLaws F) (lm : Libm F)
          (T1_ T2_ M0_ : F) (start_pos final_pos : vec3 F)
          (total_time dt : F) (n : Z),
      is_positive T1_ -> is_positive T2_ ->
      is_positive total_time -> is_positive dt ->
      (dt <=? total_time)%num = true ->
      to_int (total_time / dt)%num = inr n ->
      let run := loop_sampler lm T1_ T2_ M0_ start_pos final_pos total_time dt in
      fst run = inr tt
      /\ length (snd run) = Z.to_nat n
      /\ forall i : Z, (1 <= i <= n)%Z ->
           let t := (of_int i * dt)%num in
           let alpha := (t / total_time)%num in
           nth_error (snd run) (Z.to_nat (i - 1))
           = Some (Sample
                     (Vec3 ((of_int 1 - alpha) * vx start_pos
                            + alpha * vx final_pos)%num
                           ((of_int 1 - alpha) * vy start_pos
                            + alpha * vy final_pos)%num
                           ((of_int 1 - alpha) * vz start_pos
                            + alpha * vz final_pos)%num)
                     t))
  /\ (forall (lm : Libm Qc) (T1_ T2_ M0_ : Qc)
             (start_pos final_pos : vec3 Qc) (total_time dt : Qc),
      is_positive T1_ -> is_positive T2_ ->
      is_positive total_time -> is_positive dt ->
      (dt <=? total_time)%num = true ->
      let stepCount := Qfloor (this total_time / this dt)%Q in
      let run := loop_sampler lm T1_ T2_ M0_ start_pos final_pos total_time dt in
      fst run = inr tt
      /\ length (snd run) = Z.to_nat stepCount
      /\ forall i : Z, (1 <= i <= stepCount)%Z ->
           let t := (Q2Qc (inject_Z i) * dt)%Qc in
           let alpha := (t / total_time)%Qc in
           nth_error (snd run) (Z.to_nat (i - 1))
           = Some (Sample
                     (Vec3 ((1 - alpha) * vx start_pos + alpha * vx final_pos)%Qc
                           ((1 - alpha) * vy start_pos + alpha * vy final_pos)%Qc
                           ((1 - alpha) * vz start_pos + alpha * vz final_pos)%Qc)
                     t))
  /\ (forall lm : Libm float,
      to_int (0.3 / 0.05)%float = inr 5%Z
      /\ loop_sampler lm 1%float 0.1%float 1%float
           (Vec3 0%float 1%float 0%float)
           (Vec3 0.052%float 0%float 0.966%float) 0.3%float 0.05%float
         = (inr tt,
            [Sample (Vec3 0.008666666666666668 0.83333333333333326 0.161)
                    0.05;
             Sample (Vec3 0.017333333333333336 0.66666666666666663
                          0.32200000000000001)
                    0.1;
             Sample (Vec3 0.026000000000000006 0.49999999999999989
                          0.4830000000000001)
                    0.15000000000000002;
             Sample (Vec3 0.034666666666666672 0.33333333333333326
                          0.64400000000000002)
                    0.2;
             Sample (Vec3 0.043333333333333335 0.16666666666666663
                          0.80500000000000005)
                    0.25]%float)).
Proof.
  split; [|split].
  - intros F N L lm T1_ T2_ M0_ start_pos final_pos total_time dt n
      H1 H2 Ht Hd _ Hn run. subst run.
    rewrite (loop_sampler_closed_form lm _ _ _ _ _ _ _ n)
      by (try apply positive_nonzero; assumption).
    cbn [fst snd]. split; [reflexivity|]. split.
    + rewrite length_map. apply step_indices_length.
    + intros i Hi. cbv zeta.
      rewrite nth_error_map, step_indices_nth by assumption.
      reflexivity.
  - intros lm T1_ T2_ M0_ start_pos final_pos total_time dt
      H1 H2 Ht Hd _ stepCount run. subst run.
    rewrite (loop_sampler_closed_form lm _ _ _ _ _ _ _ stepCount)
      by (try apply positive_nonzero; try apply exact_step_count; assumption).
    cbn [fst snd]. split; [reflexivity|]. split.
    + rewrite length_map. apply step_indices_length.
    + intros i Hi. cbv zeta.
      rewrite nth_error_map, step_indices_nth by assumption.
      cbn [option_map]. unfold step_sample, lerp, vadd, scale, step_alpha,
        step_time. cbn [vx vy vz num_add num_sub num_mul num_quot of_int exact].
      change (Q2Qc (inject_Z 1)) with 1%Qc. reflexivity.
  - intros lm. split; [reflexivity|].
    rewrite (loop_sampler_closed_form lm _ _ _ _ _ _ _ 5)
      by (vm_compute; reflexivity).
    vm_compute. reflexivity.
Qed.

Lemma C1_witness :
  (let start_pos := Vec3 0%float 1%float 0%float in
   let final_pos := Vec3 0.052%float 0%float 0.966%float in
   let run := loop_sampler libm_15deg 1%float 0.1%float 1%float
                start_pos final_pos 1.5%float 0.05%float in
   fst run = inr tt
   /\ length (snd run) = Z.to_nat 30
   /\ forall i : Z, (1 <= i <= 30)%Z ->
        let t := (of_int i * 0.05%float)%num in
        let alpha := (t / 1.5%float)%num in
        nth_error (snd run) (Z.to_nat (i - 1))
        = Some (Sample
                  (Vec3 ((of_int 1 - alpha) * 0%float + alpha * 0.052%float)%num
                        ((of_int 1 - alpha) * 1%float + alpha * 0%float)%num
                        ((of_int 1 - alpha) * 0%float + alpha * 0.966%float)%num)
                  t))
  /\ (let start_pos := Vec3 (of_int 0) (of_int 1) (of_int 0) : vec3 Qc in
      let final_pos := Vec3 (decimal 52 3) (of_int 0) (decimal 966 3) : vec3 Qc in
      let total_time := decimal 3 1 : Qc in
      let dt := decimal 7 2 : Qc in
      let stepCount := Qfloor (this total_time / this dt)%Q in
      let run := loop_sampler libm_rational (decimal 10 1) (decimal 1 1)
                   (decimal 10 1) start_pos final_pos total_time dt in
      stepCount = 4%Z
      /\ fst run = inr tt
      /\ length (snd run) = Z.to_nat stepCount
      /\ forall i : Z, (1 <= i <= stepCount)%Z ->
           let t := (Q2Qc (inject_Z i) * dt)%Qc in
           let alpha := (t / total_time)%Qc in
           nth_error (snd run) (Z.to_nat (i - 1))
           = Some (Sample
                     (Vec3 ((1 - alpha) * vx start_pos + alpha * vx final_pos)%Qc
                           ((1 - alpha) * vy start_pos + alpha * vy final_pos)%Qc
                           ((1 - alpha) * vz start_pos + alpha * vz final_pos)%Qc)
                     t)).
Proof.
  split.
  - apply (proj1 C1_loop_samples_linear float binary64 b64_laws libm_15deg
             1%float 0.1%float 1%float
             (Vec3 0%float 1%float 0%float)
             (Vec3 0.052%float 0%float 0.966%float)
             1.5%float 0.05%float 30%Z);
      vm_compute; reflexivity.
  - cbv zeta. split; [reflexivity|].
    apply (proj1 (proj2 C1_loop_samples_linear) libm_rational
             (decimal 10 1) (decimal 1 1) (decimal 10 1)
             (Vec3 (of_int 0) (of_int 1) (of_int 0))
             (Vec3 (decimal 52 3) (of_int 0) (decimal 966 3))
             (decimal 3 1) (decimal 7 2));
      vm_compute; reflexivity.
Defined.

(** C1 as stated fails for the step count: in binary64 it is the integer part
    of the rounded quotient, not the floor of the quotient.  For a duration
    of 2.8 and a step of 0.08, both positive and the step below the duration,
    the loop shows 35 samples ([2.8 / 0.08] rounds to 35.0) while the floor
    of the quotient of these two floats is 34.  In the script's own testing
    run the loop shows 5 samples, while the floor of three tenths over five
    hundredths is 6, which is also the step count of the exact run. *)
Lemma C1_counterexample :
  let start_pos := Vec3 0%float 1%float 0%float in
  let final_pos := Vec3 0.052%float 0%float 0.966%float in
  let loop := loop_sampler libm_15deg 1%float 0.1%float 1%float
                start_pos final_pos 2.8%float 0.08%float in
  let testing := loop_sampler libm_15deg 1%float 0.1%float 1%float
                   start_pos final_pos 0.3%float 0.05%float in
  (0 <? 2.8)%float = true /\ (0 <? 0.08)%float = true
  /\ (0.08 <=? 2.8)%float = true
  /\ fst loop = inr tt
  /\ length (snd loop) = 35%nat
  /\ floor_of_quotient 2.8 0.08 = Some 34%Z
  /\ fst testing = inr tt
  /\ length (snd testing) = 5%nat
  /\ Qfloor ((3 # 10) / (5 # 100)) = 6%Z
  /\ to_int ((decimal 3 1 : Qc) / decimal 5 2)%num = inr 6%Z.
Proof. vm_compute. repeat split. Qed.

(** C2.  Whenever the relaxation times, the duration and the step are
    positive and the step count [int(total_time / dt)] exists, the run
    returns and the last sample it displays is the end vector itself at time
    [total_time] itself, in both arithmetics.  For [total_time = 0.3] and
    [dt = 0.07] the binary64 run shows four loop samples, at the times
    [i * 0.07] that print as 0.07, 0.14, 0.21 and 0.28 (the third is the
    float 0.21000000000000002), and then the end vector at 0.3; the exact run
    shows them at 0.07, 0.14, 0.21, 0.28 and then the end vector at 0.3. *)
Theorem C2_final_sample_is_end_vector :
  (forall (F : Type) (N : Number F) (L : NumberLaws F) (lm : Libm F)
          (T1_ T2_ M0_ : F) (start_pos final_pos : vec3 F)
          (total_time dt : F) (n : Z),
      is_positive T1_ -> is_positive T2_ ->
      is_positive total_time -> is_positive dt ->
      to_int (total_time / dt)%num = inr n ->
      let run := sampler lm T1_ T2_ M0_ start_pos final_pos total_time dt in
      fst run = inr tt
      /\ forall d, last (snd run) d = Sample final_pos total_time)
  /\ (forall (lm : Libm float) (start_pos final_pos : vec3 float),
      let run := sampler lm 1%float 0.1%float 1%float start_pos final_pos
                         0.3%float 0.07%float in
      fst run = inr tt
      /\ map (@time float) (snd run)
         = [0.07; 0.14; 0.21000000000000002; 0.28; 0.3]%float
      /\ map (fun s => hundredths (time s)) (snd run)
         = [Some 7; Some 14; Some 21; Some 28; Some 30]%Z
      /\ nth_error (snd run) 4 = Some (Sample final_pos 0.3%float))
  /\ (forall (lm : Libm Qc) (start_pos final_pos : vec3 Qc),
      let run := sampler lm (decimal 10 1) (decimal 1 1) (decimal 10 1)
                         start_pos final_pos (decimal 3 1) (decimal 7 2) in
      fst run = inr tt
      /\ Forall2 Qeq (map (fun s => this (time s)) (snd run))
                 [0.07; 0.14; 0.21; 0.28; 0.3]%Q
      /\ nth_error (snd run) 4 = Some (Sample final_pos (decimal 3 1))).
Proof.
  split; [|split].
  - intros F N L lm T1_ T2_ M0_ start_pos final_pos total_time dt n
      H1 H2 Ht Hd Hn run. subst run.
    rewrite (sampler_closed_form lm _ _ _ _ _ _ _ n)
      by (try apply positive_nonzero; assumption).
    cbn [fst snd]. split; [reflexivity|].
    intros d. apply last_last.
  - intros lm start_pos final_pos run. subst run.
    rewrite (sampler_closed_form lm _ _ _ _ _ _ _ 4)
      by (vm_compute; reflexivity).
    cbn [fst snd]. repeat split.
  - intros lm start_pos final_pos run. subst run.
    rewrite (sampler_closed_form lm _ _ _ _ _ _ _ 4)
      by (vm_compute; reflexivity).
    cbn [fst snd]. split; [reflexivity|]. split; [|reflexivity].
    repeat constructor.
Qed.

Lemma C2_witness :
  let run := sampler libm_15deg 1%float 0.1%float 1%float
               (Vec3 0%float 1%float 0%float)
               (Vec3 0.052%float 0%float 0.966%float)
               0.3%float 0.07%float in
  fst run = inr tt
  /\ forall d,
       last (snd run) d
       = Sample (Vec3 0.052%float 0%float 0.966%float) 0.3%float.
Proof.
  apply (proj1 C2_final_sample_is_end_vector float binary64 b64_laws
           libm_15deg 1%float 0.1%float 1%float _ _ _ _ 4%Z);
    vm_compute; reflexivity.
Defined.

(** C3, as the code has it.  With positive relaxation times, duration and
    step, the run displays [n + 1] samples, the loop's and the final one,
    [n] being the step count.  In any arithmetic the step count is what
    [int()] makes of the quotient [total_time / dt], the arithmetic's own
    (rounded, in binary64); in exact arithmetic it is
    [floor(total_time / dt)], so that the run displays
    [floor(total_time / dt) + 1] samples.  When the duration is the step
    itself the count is 1, so there are exactly two samples, both at the time
    [total_time]: in binary64 for every finite positive step (there [x / x]
    is exactly 1 and [1 * x] is exactly [x]), and in exact arithmetic, where
    the first of the two is already the end vector. *)
Theorem C3_sample_count :
  (forall (F : Type) (N : Number F) (L : NumberLaws F) (lm : Libm F)
          (T1_ T2_ M0_ : F) (start_pos final_pos : vec3 F)
          (total_time dt : F) (n : Z),
      is_positive T1_ -> is_positive T2_ ->
      is_positive total_time -> is_positive dt ->
      to_int (total_time / dt)%num = inr n ->
      let run := sampler lm T1_ T2_ M0_ start_pos final_pos total_time dt in
      fst run = inr tt /\ Z.of_nat (length (snd run)) = (n + 1)%Z)
  /\ (forall (lm : Libm Qc) (T1_ T2_ M0_ : Qc)
             (start_pos final_pos : vec3 Qc) (total_time dt : Qc),
      is_positive T1_ -> is_positive T2_ ->
      is_positive total_time -> is_positive dt ->
      let run := sampler lm T1_ T2_ M0_ start_pos final_pos total_time dt in
      fst run = inr tt
      /\ Z.of_nat (length (snd run))
         = (Qfloor (this total_time / this dt)%Q + 1)%Z)
  /\ (forall (lm : Libm float) (T1_ T2_ M0_ : float)
             (start_pos final_pos : vec3 float) (x : float),
      is_positive T1_ -> is_positive T2_ ->
      is_positive x -> is_finite x = true ->
      sampler lm T1_ T2_ M0_ start_pos final_pos x x
      = (inr tt,
         [Sample (lerp start_pos final_pos 1%float) x; Sample final_pos x]))
  /\ (forall (lm : Libm Qc) (T1_ T2_ M0_ : Qc)
             (start_pos final_pos : vec3 Qc) (x : Qc),
      is_positive T1_ -> is_positive T2_ -> is_positive x ->
      sampler lm T1_ T2_ M0_ start_pos final_pos x x
      = (inr tt, [Sample final_pos x; Sample final_pos x])).
Proof.
  split; [|split; [|split]].
  - intros F N L lm T1_ T2_ M0_ start_pos final_pos total_time dt n
      H1 H2 Ht Hd Hn run. subst run.
    rewrite (sampler_closed_form lm _ _ _ _ _ _ _ n)
      by (try apply positive_nonzero; assumption).
    cbn [fst snd]. split; [reflexivity|].
    rewrite length_app, length_map, step_indices_length. cbn [length].
    pose proof (steps_nonneg _ _ _ Ht Hd Hn). lia.
  - intros lm T1_ T2_ M0_ start_pos final_pos total_time dt
      H1 H2 Ht Hd run. subst run.
    pose proof (exact_step_count total_time dt Ht Hd) as Hn.
    rewrite (sampler_closed_form lm _ _ _ _ _ _ _ _ (positive_nonzero _ H1)
               (positive_nonzero _ H2) (positive_nonzero _ Ht)
               (positive_nonzero _ Hd) Hn).
    cbn [fst snd]. split; [reflexivity|].
    rewrite length_app, length_map, step_indices_length. cbn [length].
    pose proof (steps_nonneg _ _ _ Ht Hd Hn). lia.
  - intros lm T1_ T2_ M0_ start_pos final_pos x H1 H2 Hx Hf.
    pose proof (b64_positive_nonzero x Hx) as Hnz.
    rewrite (sampler_closed_form lm _ _ _ _ _ _ _ 1).
    + change (step_indices 1) with [1%Z]. cbn [map app].
      unfold step_sample, step_alpha, step_time.
      cbn [of_int num_mul num_quot binary64].
      change (float_of_int 1) with 1%float.
      rewrite b64_one_mul, (b64_quot_self x Hf Hnz). reflexivity.
    + apply b64_positive_nonzero; assumption.
    + apply b64_positive_nonzero; assumption.
    + assumption.
    + assumption.
    + cbn [num_quot to_int binary64]. rewrite (b64_quot_self x Hf Hnz).
      reflexivity.
  - intros lm T1_ T2_ M0_ start_pos final_pos x H1 H2 Hx.
    pose proof (exact_positive_nonzero x Hx) as Hnz.
    assert (Hx0 : x <> 0%Qc) by (apply exact_nonzero; assumption).
    assert (Hq : (x / x)%num = of_int 1).
    { cbn [num_quot exact]. rewrite exact_of_int_1. field. exact Hx0. }
    rewrite (sampler_closed_form lm _ _ _ _ _ _ _ 1).
    + change (step_indices 1) with [1%Z]. cbn [map app].
      unfold step_sample, step_alpha, step_time.
      assert (E1 : (of_int 1 * x)%num = x).
      { cbn [num_mul exact]. rewrite exact_of_int_1. ring. }
      rewrite E1, Hq.
      assert (E2 : lerp start_pos final_pos (of_int 1) = final_pos).
      { destruct start_pos as [sx sy sz], final_pos as [fx fy fz].
        unfold lerp, vadd, scale. cbn [vx vy vz num_add num_sub num_mul exact].
        rewrite exact_of_int_1. f_equal; ring. }
      rewrite E2. reflexivity.
    + apply exact_positive_nonzero; assumption.
    + apply exact_positive_nonzero; assumption.
    + assumption.
    + assumption.
    + rewrite Hq. reflexivity.
Qed.

Lemma C3_witness :
  (let run := sampler libm_15deg 1%float 0.1%float 1%float
                (Vec3 0%float 1%float 0%float)
                (Vec3 0.052%float 0%float 0.966%float)
                1.5%float 0.05%float in
   fst run = inr tt /\ Z.of_nat (length (snd run)) = (30 + 1)%Z)
  /\ (let total_time := decimal 3 1 : Qc in
      let dt := decimal 7 2 : Qc in
      let run := sampler libm_rational (decimal 10 1) (decimal 1 1)
                   (decimal 10 1)
                   (Vec3 (of_int 0) (of_int 1) (of_int 0))
                   (Vec3 (decimal 52 3) (of_int 0) (decimal 966 3))
                   total_time dt in
      Qfloor (this total_time / this dt)%Q = 4%Z
      /\ fst run = inr tt
      /\ Z.of_nat (length (snd run))
         = (Qfloor (this total_time / this dt)%Q + 1)%Z).
Proof.
  split.
  - apply (proj1 C3_sample_count float binary64 b64_laws
             libm_15deg 1%float 0.1%float 1%float _ _ _ _ 30%Z);
      vm_compute; reflexivity.
  - cbv zeta. split; [reflexivity|].
    apply (proj1 (proj2 C3_sample_count) libm_rational
             (decimal 10 1) (decimal 1 1) (decimal 10 1)
             (Vec3 (of_int 0) (of_int 1) (of_int 0))
             (Vec3 (decimal 52 3) (of_int 0) (decimal 966 3))
             (decimal 3 1) (decimal 7 2));
      vm_compute; reflexivity.
Defined.

(** C3 as stated fails for the count: in binary64 the run shows one sample
    more than the integer part of the rounded quotient, which is not always
    the floor of the quotient.  The script's own testing run, a duration of
    0.3 in steps of 0.05, shows 6 samples, while the floor of three tenths
    over five hundredths is 6 and the claim's count 7, which is what the
    exact run shows.  For a duration of 2.8 and a step of 0.08 the run shows
    36 samples, while the floor of the quotient of these two floats is 34 and
    the claim's count 35. *)
Lemma C3_counterexample :
  let start_pos := Vec3 0%float 1%float 0%float in
  let final_pos := Vec3 0.052%float 0%float 0.966%float in
  let testing := sampler libm_15deg 1%float 0.1%float 1%float
                   start_pos final_pos 0.3%float 0.05%float in
  let exact_run := sampler libm_rational (decimal 10 1) (decimal 1 1)
                     (decimal 10 1)
                     (Vec3 (of_int 0) (of_int 1) (of_int 0))
                     (Vec3 (decimal 52 3) (of_int 0) (decimal 966 3))
                     (decimal 3 1) (decimal 5 2) in
  let run := sampler libm_15deg 1%float 0.1%float 1%float
               start_pos final_pos 2.8%float 0.08%float in
  fst testing = inr tt
  /\ length (snd testing) = 6%nat
  /\ (Qfloor ((3 # 10) / (5 # 100)) + 1 = 7)%Z
  /\ length (snd exact_run) = 7%nat
  /\ (0 <? 2.8)%float = true /\ (0 <? 0.08)%float = true
  /\ fst run = inr tt
  /\ length (snd run) = 36%nat
  /\ option_map Z.succ (floor_of_quotient 2.8 0.08) = Some 35%Z.
Proof. vm_compute. repeat split. Qed.

(** C4.  Two runs that agree on the two vectors, the duration and the step
    display the same samples and end the same way, whatever positive
    relaxation times each of them uses, and whatever exponential function:
    [exp(-t/T2)] and [1 - exp(-t/T1)] are computed at every step and reach
    no sample. *)
Theorem C4_samples_independent_of_T1_T2 {F : Type} `{NumberLaws F}
    (lm lm' : Libm F) (T1_ T2_ T1' T2' M0_ : F)
    (start_pos final_pos : vec3 F) (total_time dt : F) :
  is_positive T1_ -> is_positive T2_ ->
  is_positive T1' -> is_positive T2' ->
  sampler lm T1_ T2_ M0_ start_pos final_pos total_time dt
  = sampler lm' T1' T2' M0_ start_pos final_pos total_time dt.
Proof.
  intros H1 H2 H1' H2'.
  rewrite !sampler_trajectory by (apply positive_nonzero; assumption).
  reflexivity.
Qed.

Lemma C4_witness :
  sampler libm_15deg 1%float 0.1%float 1%float
    (Vec3 0%float 1%float 0%float) (Vec3 0.052%float 0%float 0.966%float)
    0.3%float 0.05%float
  = sampler libm_15deg 2.5%float 0.04%float 1%float
      (Vec3 0%float 1%float 0%float) (Vec3 0.052%float 0%float 0.966%float)
      0.3%float 0.05%float.
Proof.
  apply (C4_samples_independent_of_T1_T2 libm_15deg libm_15deg);
    vm_compute; reflexivity.
Defined.

(** ** The equilibrium vector *)

Section Equilibrium_assigned.

Context {F : Type} `{Number F}.
Variable lm : Libm F.

Local Open Scope scene_scope.

(** [demonstrate_bloch_physics] leaves the vector it computed first in
    [self.equilibrium_end], however the rest of it ends. *)
Lemma demonstrate_sets_equilibrium (s : scene F) :
  equilibrium_end (snd (demonstrate_bloch_physics lm s))
  = Some (equilibrium_vector lm (M0 s)).
Proof.
  unfold demonstrate_bloch_physics.
  unfold bind at 1, get. unfold bind at 1, set_equilibrium_end.
  set (s' := Scene_ _ _ _ _ _ _).
  assert (K : keeps_equilibrium
                (emit (ev_create (equilibrium_vector lm (M0 s))) ;;
                 emit (ev_status Equilibrium_State) ;;
                 apply_rf_pulse_enhanced ;;
                 show_relaxation_enhanced lm ;;
                 show_final_summary)).
  { apply keeps_bind; [apply keeps_emit | intros _].
    apply keeps_bind; [apply keeps_emit | intros _].
    apply keeps_bind; [apply keeps_apply_rf_pulse_enhanced | intros _].
    apply keeps_bind; [apply keeps_show_relaxation_enhanced | intros _].
    apply keeps_show_final_summary. }
  rewrite (K s'). reflexivity.
Qed.

End Equilibrium_assigned.

(** C5, as the code has it.  The vector [construct] leaves in
    [self.equilibrium_end] is [(0.2 * sin(tilt), 0, M0 * cos(tilt))] for the
    tilt of 15 degrees and the [M0 = 1.0] that [construct] sets: its first
    component is scaled by the constant 0.2, not by [M0].  It is assigned once,
    by [demonstrate_bloch_physics]; each method run after the assignment leaves
    the attribute as it found it, whether it returns or raises. *)
Theorem C5_equilibrium_vector_assigned_once :
  forall (F : Type) (N : Number F) (lm : Libm F) (testing : bool),
    let tilt := (of_int 15 * DEGREES lm)%num in
    let M0_ := M0 (initial_scene (F := F) testing) in
    equilibrium_end (snd (construct lm testing))
    = Some (Vec3 (decimal 2 1 * lm_sin lm tilt)%num
                 (of_int 0)
                 (M0_ * lm_cos lm tilt)%num)
    /\ keeps_equilibrium (F := F) apply_rf_pulse_enhanced
    /\ keeps_equilibrium (show_relaxation_enhanced lm)
    /\ keeps_equilibrium (F := F) show_final_summary.
Proof.
  intros F N lm testing tilt M0_. split; [|split; [|split]].
  - unfold construct. unfold bind, emit.
    rewrite demonstrate_sets_equilibrium. reflexivity.
  - apply keeps_apply_rf_pulse_enhanced.
  - apply keeps_show_relaxation_enhanced.
  - apply keeps_show_final_summary.
Qed.

(** C5 as stated fails: with numpy's sine and cosine of 15 degrees and
    [M0 = 1.0], the first component of the vector is 0.2 * 0.2588... =
    0.0517..., where [M0 * sin(tilt)] is 0.2588.... *)
Lemma C5_counterexample :
  let lm := libm_15deg in
  let tilt := (of_int 15 * DEGREES lm)%num in
  let M0_ := M0 (initial_scene (F := float) true) in
  M0_ = 1%float
  /\ equilibrium_end (snd (construct lm true))
     = Some (Vec3 0.05176380902050415 0 0.9659258262890683)%float
  /\ (M0_ * lm_sin lm tilt)%num = 0.25881904510252074%float
  /\ equilibrium_end (snd (construct lm true))
     <> Some (Vec3 (M0_ * lm_sin lm tilt)%num (of_int 0)
                   (M0_ * lm_cos lm tilt)%num).
Proof.
  cbv zeta. repeat split.
  intros E.
  apply (f_equal (fun o => match o with
                           | Some v => Prim2SF (vx v)
                           | None => S754_nan
                           end)) in E.
  vm_compute in E. discriminate E.
Qed.

(** ** Order along the index sequence *)

Section Order.

Context {F : Type} `{Number F}.

Local Open Scope num_scope.

Lemma increasing_map_seq (f : Z -> F) (k : nat) : forall a : nat,
  (forall i : Z, (Z.of_nat a <= i < Z.of_nat a + Z.of_nat k - 1)%Z ->
                 (f i <? f (i + 1)%Z) = true) ->
  increasing (map f (map Z.of_nat (seq a k))) = true.
Proof.
  induction k as [|k IH]; intros a Hf; [reflexivity|].
  destruct k as [|k]; [reflexivity|].
  change (map f (map Z.of_nat (seq a (S (S k)))))
    with (f (Z.of_nat a) :: map f (map Z.of_nat (seq (S a) (S k)))).
  change (map f (map Z.of_nat (seq (S a) (S k))))
    with (f (Z.of_nat (S a)) :: map f (map Z.of_nat (seq (S (S a)) k))).
  cbn [increasing]. apply andb_true_intro. split.
  - replace (Z.of_nat (S a)) with (Z.of_nat a + 1)%Z by lia.
    apply Hf. lia.
  - apply (IH (S a)). intros i Hi. apply Hf. lia.
Qed.

Lemma nondecreasing_map_seq (f : Z -> F) (k : nat) : forall a : nat,
  (forall i : Z, (Z.of_nat a <= i < Z.of_nat a + Z.of_nat k - 1)%Z ->
                 (f i <=? f (i + 1)%Z) = true) ->
  nondecreasing (map f (map Z.of_nat (seq a k))) = true.
Proof.
  induction k as [|k IH]; intros a Hf; [reflexivity|].
  destruct k as [|k]; [reflexivity|].
  change (map f (map Z.of_nat (seq a (S (S k)))))
    with (f (Z.of_nat a) :: map f (map Z.of_nat (seq (S a) (S k)))).
  change (map f (map Z.of_nat (seq (S a) (S k))))
    with (f (Z.of_nat (S a)) :: map f (map Z.of_nat (seq (S (S a)) k))).
  cbn [nondecreasing]. apply andb_true_intro. split.
  - replace (Z.of_nat (S a)) with (Z.of_nat a + 1)%Z by lia.
    apply Hf. lia.
  - apply (IH (S a)). intros i Hi. apply Hf. lia.
Qed.

(** A sequence that does not decrease, followed by a bound of all of it. *)
Lemma nondecreasing_snoc (l : list F) (y : F) :
  nondecreasing l = true ->
  (forall x, In x l -> (x <=? y) = true) ->
  nondecreasing (l ++ [y]) = true.
Proof.
  induction l as [|x l IH]; intros Hl Hy; [reflexivity|].
  destruct l as [|x' l].
  - cbn. rewrite (Hy x (or_introl eq_refl)). reflexivity.
  - cbn [nondecreasing app] in *. apply andb_prop in Hl. destruct Hl as [Hx Hl].
    rewrite Hx. cbn [andb]. apply IH; [assumption|].
    intros z Hz. apply Hy. right. exact Hz.
Qed.

Lemma nondecreasing_cons (x : F) (l : list F) :
  nondecreasing l = true ->
  (forall y, In y l -> (x <=? y) = true) ->
  nondecreasing (x :: l) = true.
Proof.
  intros Hl Hx. destruct l as [|y l]; [reflexivity|].
  cbn [nondecreasing] in *. rewrite (Hx y (or_introl eq_refl)). exact Hl.
Qed.

End Order.

(** ** The trajectory in exact arithmetic *)

Section Exact_trajectory.

Local Open Scope Qc_scope.

Variables total_time dt : Qc.
Variable n : Z.
Hypothesis Ht : 0 < total_time.
Hypothesis Hd : 0 < dt.
Hypothesis Hn : to_int (total_time / dt)%num = inr n.

Lemma exact_steps_bound : of_int n * dt <= total_time.
Proof.
  assert (Hq : 0 <= total_time / dt)
    by (apply exact_quot_nonneg; [apply Qclt_le_weak|]; assumption).
  destruct (exact_to_int_bounds _ _ Hq Hn) as [Hlo _].
  rewrite <- (exact_quot_mul total_time dt)
    by (intros E; subst dt; exact (Qclt_not_eq _ _ Hd eq_refl)).
  apply Qcmult_le_compat_r; [exact Hlo | apply Qclt_le_weak; exact Hd].
Qed.

Lemma exact_time_lower (i : Z) : (1 <= i)%Z -> dt <= of_int i * dt.
Proof.
  intros Hi. rewrite <- (Qcmult_1_l dt) at 1. rewrite <- exact_of_int_1.
  apply Qcmult_le_compat_r;
    [apply exact_of_int_le; exact Hi | apply Qclt_le_weak; exact Hd].
Qed.

Lemma exact_time_upper (i : Z) : (i <= n)%Z -> of_int i * dt <= total_time.
Proof.
  intros Hi. apply Qcle_trans with (of_int n * dt);
    [|exact exact_steps_bound].
  apply Qcmult_le_compat_r;
    [apply exact_of_int_le; exact Hi | apply Qclt_le_weak; exact Hd].
Qed.

Lemma exact_time_increasing (i : Z) : of_int i * dt < of_int (i + 1) * dt.
Proof. apply Qcmult_lt_compat_r; [exact Hd | apply exact_of_int_lt; lia]. Qed.

Lemma exact_quot_le (a b : Qc) : a <= b -> a / total_time <= b / total_time.
Proof.
  intros Hab. unfold Qcdiv. apply Qcmult_le_compat_r; [exact Hab|].
  apply exact_inv_nonneg. exact Ht.
Qed.

Lemma exact_alpha_nonneg (i : Z) : (0 <= i)%Z -> 0 <= of_int i * dt / total_time.
Proof.
  intros Hi. apply exact_quot_nonneg; [|exact Ht].
  rewrite <- (Qcmult_0_l dt). rewrite <- exact_of_int_0.
  apply Qcmult_le_compat_r;
    [apply exact_of_int_le; exact Hi | apply Qclt_le_weak; exact Hd].
Qed.

Lemma exact_alpha_le_1 (i : Z) : (i <= n)%Z -> of_int i * dt / total_time <= 1.
Proof.
  intros Hi.
  assert (E : total_time / total_time = 1)
    by (field; intros E; subst total_time; exact (Qclt_not_eq _ _ Ht eq_refl)).
  rewrite <- E. apply exact_quot_le. apply exact_time_upper. exact Hi.
Qed.

Lemma exact_alpha_step (i : Z) :
  of_int i * dt / total_time <= of_int (i + 1) * dt / total_time.
Proof.
  apply exact_quot_le. apply Qclt_le_weak. apply exact_time_increasing.
Qed.

End Exact_trajectory.

(** ** Times *)

(** C6, as the code has it.  In exact arithmetic, for positive relaxation
    times, duration and step with the step at most the duration: the run
    returns, the times of the loop's samples increase strictly and all lie
    in [[dt, total_time]], and the one sample after them is the end vector at
    [total_time].  In binary64 the same holds of the two runs the script can
    make (0.3 s or 1.5 s in steps of 0.05 s); it does not hold of every
    duration and step, since [i * dt] is rounded. *)
Theorem C6_times_increasing_and_bounded :
  (forall (lm : Libm Qc) (T1_ T2_ M0_ : Qc) (start_pos final_pos : vec3 Qc)
          (total_time dt : Qc),
      is_positive T1_ -> is_positive T2_ ->
      is_positive total_time -> is_positive dt ->
      (dt <=? total_time)%num = true ->
      let loop :=
        loop_sampler lm T1_ T2_ M0_ start_pos final_pos total_time dt in
      let run := sampler lm T1_ T2_ M0_ start_pos final_pos total_time dt in
      fst run = inr tt
      /\ snd run = snd loop ++ [Sample final_pos total_time]
      /\ increasing (times (snd loop)) = true
      /\ forallb (between dt total_time) (times (snd loop)) = true)
  /\ (forall (lm : Libm float) (testing : bool),
      let shown := samples (trace (snd (construct lm testing))) in
      let total_time := if testing then 0.3%float else 1.5%float in
      fst (construct lm testing) = inr tt
      /\ increasing (times (removelast shown)) = true
      /\ forallb (between 0.05%float total_time) (times (removelast shown))
         = true
      /\ forall d, time (last shown d) = total_time).
Proof.
  split.
  - intros lm T1_ T2_ M0_ start_pos final_pos total_time dt H1 H2 Ht Hd _
      loop run. subst loop run.
    assert (Hn : exists n, to_int (total_time / dt)%num = inr n)
      by (eexists; reflexivity).
    destruct Hn as [n Hn].
    rewrite (loop_sampler_closed_form lm _ _ _ _ _ _ _ n),
      (sampler_closed_form lm _ _ _ _ _ _ _ n)
      by (try apply positive_nonzero; assumption).
    cbn [fst snd]. split; [reflexivity|]. split; [reflexivity|].
    apply exact_positive in Ht, Hd.
    unfold times. rewrite map_map. cbn [time step_sample]. split.
    + unfold step_indices. apply increasing_map_seq. intros i _.
      apply exact_ltb. apply exact_time_increasing. exact Hd.
    + apply forallb_forall. intros t Hin.
      apply in_map_iff in Hin. destruct Hin as (i & <- & Hi).
      apply step_indices_range in Hi.
      unfold between. apply andb_true_intro. split; apply exact_leb.
      * apply exact_time_lower; [exact Hd | lia].
      * apply (exact_time_upper total_time dt n Ht Hd Hn). lia.
  - intros lm [|]; vm_compute; repeat split.
Qed.

Lemma C6_witness :
  let start_pos := Vec3 (of_int 0) (of_int 1) (of_int 0) in
  let final_pos := Vec3 (decimal 52 3) (of_int 0) (decimal 966 3) in
  let loop :=
    loop_sampler libm_rational (of_int 1) (decimal 1 1) (of_int 1) start_pos final_pos
                 (decimal 28 1) (decimal 8 2) in
  let run :=
    sampler libm_rational (of_int 1) (decimal 1 1) (of_int 1)
            start_pos final_pos (decimal 28 1) (decimal 8 2) in
  fst run = inr tt
  /\ snd run = snd loop ++ [Sample final_pos (decimal 28 1)]
  /\ increasing (times (snd loop)) = true
  /\ forallb (between (decimal 8 2) (decimal 28 1)) (times (snd loop)) = true.
Proof.
  cbv zeta.
  apply (proj1 C6_times_increasing_and_bounded); vm_compute; reflexivity.
Defined.

(** C6 as stated fails in binary64: for a duration of 2.8 and a step of 0.08
    the step count is 35 and the 35th time, [35 * 0.08], is the float
    2.8000000000000003, above the duration, and above the time 2.8 of the
    sample that follows it. *)
Lemma C6_counterexample :
  let start_pos := Vec3 0%float 1%float 0%float in
  let final_pos := Vec3 0.052%float 0%float 0.966%float in
  let loop := loop_sampler libm_15deg 1%float 0.1%float 1%float
                start_pos final_pos 2.8%float 0.08%float in
  let run := sampler libm_15deg 1%float 0.1%float 1%float
               start_pos final_pos 2.8%float 0.08%float in
  (is_positive 2.8%float /\ is_positive 0.08%float
   /\ (0.08 <=? 2.8)%float = true)
  /\ fst run = inr tt
  /\ to_int (2.8 / 0.08)%float = inr 35%Z
  /\ nth_error (times (snd loop)) 34 = Some 2.8000000000000003%float
  /\ (2.8 <? 2.8000000000000003)%float = true
  /\ forallb (between 0.08%float 2.8%float) (times (snd loop)) = false
  /\ last_two (times (snd run)) = [2.8000000000000003; 2.8]%float
  /\ nondecreasing (times (snd run)) = false.
Proof. vm_compute. repeat split. Qed.

(** ** The run of the testing mode *)

Lemma exact_lerp_one (start_pos final_pos : vec3 Qc) :
  lerp start_pos final_pos (of_int 1) = final_pos.
Proof.
  destruct start_pos as [sx sy sz], final_pos as [fx fy fz].
  unfold lerp, vadd, scale. cbn [vx vy vz num_add num_sub num_mul exact].
  rewrite exact_of_int_1. f_equal; ring.
Qed.

(** C7, as the code has it.  For the start vector (0, 1, 0), the end vector
    (0.052, 0, 0.966), a duration of 0.3 and a step of 0.05, the binary64
    quotient [0.3 / 0.05] is 5.999999999999999, so [int()] gives 5 steps: the
    loop shows five samples, at the times [i * 0.05] that print as 0.05, 0.10,
    0.15, 0.20 and 0.25, each at the position of fraction [t / 0.3]; the sixth
    and last sample of the run is the final one, the end vector at 0.3.  In
    exact arithmetic the loop shows six samples, at 0.05, ..., 0.30, the sixth
    being the end vector at 0.3, and the final sample follows it all the
    same. *)
Theorem C7_testing_mode_run :
  (forall lm : Libm float,
      let start_pos := Vec3 0%float 1%float 0%float in
      let final_pos := Vec3 0.052%float 0%float 0.966%float in
      let loop := loop_sampler lm 1%float 0.1%float 1%float
                    start_pos final_pos 0.3%float 0.05%float in
      let run := sampler lm 1%float 0.1%float 1%float
                   start_pos final_pos 0.3%float 0.05%float in
      (0.3 / 0.05)%float = 5.999999999999999%float
      /\ to_int (0.3 / 0.05)%float = inr 5%Z
      /\ fst run = inr tt
      /\ snd loop
         = map (fun i : Z =>
                  Sample (lerp start_pos final_pos
                               (of_int i * 0.05 / 0.3)%float)
                         (of_int i * 0.05)%float)
               [1; 2; 3; 4; 5]%Z
      /\ map (fun s => hundredths (time s)) (snd loop)
         = [Some 5; Some 10; Some 15; Some 20; Some 25]%Z
      /\ snd run = snd loop ++ [Sample final_pos 0.3%float])
  /\ (forall lm : Libm Qc,
      let start_pos := Vec3 (of_int 0) (of_int 1) (of_int 0) in
      let final_pos := Vec3 (decimal 52 3) (of_int 0) (decimal 966 3) in
      let loop := loop_sampler lm (decimal 10 1) (decimal 1 1) (decimal 10 1)
                    start_pos final_pos (decimal 3 1) (decimal 5 2) in
      let run := sampler lm (decimal 10 1) (decimal 1 1) (decimal 10 1)
                   start_pos final_pos (decimal 3 1) (decimal 5 2) in
      fst run = inr tt
      /\ length (snd loop) = 6%nat
      /\ Forall2 Qeq (map (fun s => this (time s)) (snd loop))
                 [0.05; 0.1; 0.15; 0.2; 0.25; 0.3]%Q
      /\ nth_error (snd loop) 5 = Some (Sample final_pos (decimal 3 1))
      /\ snd run = snd loop ++ [Sample final_pos (decimal 3 1)]).
Proof.
  split.
  - intros lm start_pos final_pos loop run. subst loop run.
    rewrite (loop_sampler_closed_form lm _ _ _ _ _ _ _ 5),
      (sampler_closed_form lm _ _ _ _ _ _ _ 5)
      by (vm_compute; reflexivity).
    cbn [fst snd]. repeat split.
  - intros lm start_pos final_pos loop run. subst loop run.
    rewrite (loop_sampler_closed_form lm _ _ _ _ _ _ _ 6),
      (sampler_closed_form lm _ _ _ _ _ _ _ 6)
      by (vm_compute; reflexivity).
    cbn [fst snd]. split; [reflexivity|]. split; [reflexivity|].
    split; [repeat constructor|]. split; [|reflexivity].
    change (nth_error
              (map (step_sample start_pos final_pos (decimal 3 1) (decimal 5 2))
                   (step_indices 6)) 5)
      with (Some (step_sample start_pos final_pos (decimal 3 1) (decimal 5 2)
                              6)).
    unfold step_sample, step_alpha, step_time. do 2 f_equal.
    + replace (of_int 6 * decimal 5 2 / decimal 3 1)%num
        with (of_int 1 : Qc) by (apply Qc_is_canon; reflexivity).
      apply exact_lerp_one.
    + apply Qc_is_canon. reflexivity.
Qed.

(** C7 as stated fails: the binary64 loop shows five samples for these
    inputs, not six, and none of them at 0.30.  (A sixth step would not have
    landed on 0.3 either: [6 * 0.05] is the float 0.30000000000000004, whose
    fraction of 0.3 is above 1.) *)
Lemma C7_counterexample :
  let start_pos := Vec3 0%float 1%float 0%float in
  let final_pos := Vec3 0.052%float 0%float 0.966%float in
  let loop := loop_sampler libm_15deg 1%float 0.1%float 1%float
                start_pos final_pos 0.3%float 0.05%float in
  fst loop = inr tt
  /\ length (snd loop) = 5%nat
  /\ length (snd loop) <> 6%nat
  /\ nth_error (snd loop) 5 = None
  /\ map (fun s => hundredths (time s)) (snd loop)
     = [Some 5; Some 10; Some 15; Some 20; Some 25]%Z
  /\ (of_int 6 * 0.05)%float = 0.30000000000000004%float
  /\ (of_int 6 * 0.05 / 0.3)%float = 1.0000000000000002%float.
Proof. vm_compute. repeat split. discriminate. Qed.

(** ** Degenerate runs *)

(** C8.  When the duration is zero, or more generally not negative and below
    the step, the step count is zero: the loop shows nothing, the run
    returns, and its only sample is the end vector at [total_time].  Nothing
    is divided by [total_time] (which would raise when it is zero), and
    neither relaxation time is read: they may be anything, zero included.
    This holds in both arithmetics; in binary64 the quotient of
    [0 <= total_time < dt] rounds to a float below one. *)
Theorem C8_only_final_sample {F : Type} `{NumberLaws F} (lm : Libm F)
    (T1_ T2_ M0_ : F) (start_pos final_pos : vec3 F) (total_time dt : F) :
  (of_int 0 <=? total_time)%num = true ->
  (total_time <? dt)%num = true ->
  loop_sampler lm T1_ T2_ M0_ start_pos final_pos total_time dt = (inr tt, [])
  /\ sampler lm T1_ T2_ M0_ start_pos final_pos total_time dt
     = (inr tt, [Sample final_pos total_time]).
Proof.
  intros Ht Hlt.
  pose proof (positive_nonzero _ (above_nonneg_positive _ _ Ht Hlt)) as Hd.
  pose proof (no_step _ _ Ht Hlt) as Hn.
  split.
  - unfold loop_sampler.
    rewrite (relaxation_loop_skip lm _ _ _ _ 0) by (assumption || lia).
    reflexivity.
  - apply (sampler_degenerate lm _ _ _ _ _ _ _ 0); assumption || lia.
Qed.

Lemma C8_witness :
  let start_pos := Vec3 0%float 1%float 0%float in
  let final_pos := Vec3 0.052%float 0%float 0.966%float in
  (loop_sampler libm_15deg 0%float 0%float 1%float start_pos final_pos
                0%float 0.05%float
   = (inr tt, [])
   /\ sampler libm_15deg 0%float 0%float 1%float start_pos final_pos
              0%float 0.05%float
      = (inr tt, [Sample final_pos 0%float]))
  /\ (loop_sampler libm_15deg 1%float 0.1%float 1%float start_pos final_pos
                   0.04999999999999999%float 0.05%float
      = (inr tt, [])
      /\ sampler libm_15deg 1%float 0.1%float 1%float start_pos final_pos
                 0.04999999999999999%float 0.05%float
         = (inr tt, [Sample final_pos 0.04999999999999999%float])).
Proof.
  cbv zeta. split.
  - apply (C8_only_final_sample libm_15deg); vm_compute; reflexivity.
  - apply (C8_only_final_sample libm_15deg); vm_compute; reflexivity.
Defined.

(** ** The final sample after a step that divides the duration *)

Section Last_two.

Lemma last_two_snoc {A} (l : list A) (b a : A) :
  last_two (l ++ [b; a]) = [b; a].
Proof.
  unfold last_two. rewrite length_app. cbn [length].
  replace (length l + 2 - 2)%nat with (length l + 0)%nat by lia.
  rewrite skipn_app, Nat.add_0_r, skipn_all.
  replace (length l - length l)%nat with 0%nat by lia. reflexivity.
Qed.

Lemma step_indices_snoc (n : Z) :
  (1 <= n)%Z -> step_indices n = step_indices (n - 1) ++ [n].
Proof.
  intros Hn. unfold step_indices.
  replace (Z.to_nat n) with (S (Z.to_nat (n - 1))) by lia.
  rewrite seq_S, map_app. cbn [map]. do 2 f_equal. lia.
Qed.

End Last_two.

Section Exact_division.

Local Open Scope Qc_scope.

Lemma exact_to_int_of_int (n : Z) : (0 <= n)%Z -> to_int (of_int n) = inr n.
Proof.
  intros Hn. rewrite exact_to_int_floor.
  - f_equal. transitivity (Qfloor (inject_Z n));
      [apply Qfloor_comp, this_of_int | apply Qfloor_Z].
  - rewrite <- exact_of_int_0. apply exact_of_int_le. exact Hn.
Qed.

(** A positive duration that is [n] positive steps has [n >= 1]. *)
Lemma exact_multiple_positive (total_time dt : Qc) (n : Z) :
  0 < total_time -> 0 < dt -> total_time = of_int n * dt -> (1 <= n)%Z.
Proof.
  intros Ht Hd E.
  destruct (Z_lt_le_dec 0 n) as [Hpos|Hle]; [lia|exfalso].
  assert (Hn : of_int n <= 0)
    by (rewrite <- exact_of_int_0; apply exact_of_int_le; exact Hle).
  assert (Hp : of_int n * dt <= 0 * dt)
    by (apply Qcmult_le_compat_r; [exact Hn | apply Qclt_le_weak; exact Hd]).
  rewrite Qcmult_0_l, <- E in Hp.
  exact (Qclt_not_le _ _ Ht Hp).
Qed.

End Exact_division.

(** C9, as the code has it.  The final sample is shown on every run that
    returns: a run with positive relaxation times that returns ends with the
    end vector at [total_time], in both arithmetics.  In exact arithmetic,
    when the duration is a whole number of steps, the last two samples are
    both the end vector at [total_time].  In binary64 that is so whenever
    the last loop time [n * dt], for the step count [n], is the float
    [total_time] (with a finite start vector and no [-0.0] in the end
    vector): as in the full-quality run (1.5 s in steps of 0.05 s, where
    [1.5 / 0.05] is 30.0 and [30 * 0.05] is 1.5), and not in the testing run
    (0.3 s), where the loop stops at 0.25. *)
Theorem C9_final_sample_unconditional :
  (forall (F : Type) (N : Number F) (L : NumberLaws F) (lm : Libm F)
          (T1_ T2_ M0_ : F) (start_pos final_pos : vec3 F)
          (total_time dt : F),
      is_positive T1_ -> is_positive T2_ ->
      let run := sampler lm T1_ T2_ M0_ start_pos final_pos total_time dt in
      fst run = inr tt ->
      exists loop_part,
        snd run = loop_part ++ [Sample final_pos total_time])
  /\ (forall (lm : Libm Qc) (T1_ T2_ M0_ : Qc)
             (start_pos final_pos : vec3 Qc) (total_time dt : Qc) (n : Z),
      is_positive T1_ -> is_positive T2_ ->
      is_positive total_time -> is_positive dt ->
      total_time = (of_int n * dt)%num ->
      let run := sampler lm T1_ T2_ M0_ start_pos final_pos total_time dt in
      fst run = inr tt
      /\ last_two (snd run)
         = [Sample final_pos total_time; Sample final_pos total_time])
  /\ (forall (lm : Libm float) (T1_ T2_ M0_ : float)
             (start_pos final_pos : vec3 float) (total_time dt : float)
             (n : Z),
      is_positive T1_ -> is_positive T2_ ->
      is_positive total_time -> is_positive dt ->
      is_finite total_time = true ->
      to_int (total_time / dt)%num = inr n ->
      (of_int n * dt)%num = total_time ->
      finite_vec start_pos = true -> no_neg_zero final_pos = true ->
      let run := sampler lm T1_ T2_ M0_ start_pos final_pos total_time dt in
      fst run = inr tt
      /\ last_two (snd run)
         = [Sample final_pos total_time; Sample final_pos total_time])
  /\ (let shown := samples (trace (snd (construct libm_15deg false))) in
      let final_pos := equilibrium_vector libm_15deg 1%float in
      to_int (1.5 / 0.05)%float = inr 30%Z
      /\ (of_int 30 * 0.05)%float = 1.5%float
      /\ length shown = 31%nat
      /\ last_two shown
         = [Sample final_pos 1.5%float; Sample final_pos 1.5%float]).
Proof.
  split; [|split; [|split]].
  - intros F N L lm T1_ T2_ M0_ start_pos final_pos total_time dt H1 H2 run.
    subst run.
    rewrite sampler_trajectory by (apply positive_nonzero; assumption).
    unfold trajectory.
    destruct (dt =? of_int 0)%num; [discriminate|].
    destruct (to_int (total_time / dt)%num) as [e|n]; [discriminate|].
    destruct (Z.to_nat n).
    + intros _. exists []. reflexivity.
    + destruct (total_time =? of_int 0)%num; [discriminate|].
      intros _. eexists. reflexivity.
  - intros lm T1_ T2_ M0_ start_pos final_pos total_time dt n
      H1 H2 Ht Hd E run. subst run.
    pose proof (proj1 (exact_positive _) Ht) as Ht'.
    pose proof (proj1 (exact_positive _) Hd) as Hd'.
    pose proof (proj1 (exact_nonzero _) (exact_positive_nonzero _ Ht)) as Ht0.
    pose proof (proj1 (exact_nonzero _) (exact_positive_nonzero _ Hd)) as Hd0.
    cbn [num_mul exact] in E.
    pose proof (exact_multiple_positive _ _ _ Ht' Hd' E) as Hn1.
    assert (Hq : (total_time / dt)%num = of_int n).
    { cbn [num_quot exact]. rewrite E. field. exact Hd0. }
    rewrite (sampler_closed_form lm _ _ _ _ _ _ _ n);
      [|apply positive_nonzero; assumption..
       |rewrite Hq; apply exact_to_int_of_int; lia].
    cbn [fst snd]. split; [reflexivity|].
    rewrite (step_indices_snoc n Hn1), map_app, <- app_assoc. cbn [map app].
    rewrite last_two_snoc. f_equal.
    unfold step_sample, step_alpha, step_time.
    cbn [num_mul num_quot exact]. rewrite <- E.
    replace (total_time / total_time)%Qc with (of_int 1 : Qc)
      by (rewrite exact_of_int_1; field; exact Ht0).
    rewrite exact_lerp_one. reflexivity.
  - intros lm T1_ T2_ M0_ start_pos final_pos total_time dt n
      H1 H2 Ht Hd Hfin Hn E Hs Hf run. subst run.
    pose proof (steps_nonneg _ _ _ Ht Hd Hn) as Hn0.
    assert (Hn1 : (1 <= n)%Z).
    { destruct (Z.eq_dec n 0) as [E0|]; [exfalso|lia]. subst n.
      rewrite <- E in Ht. exact (b64_zero_mul_not_positive dt Ht). }
    rewrite (sampler_closed_form lm _ _ _ _ _ _ _ n)
      by (try apply positive_nonzero; assumption).
    cbn [fst snd]. split; [reflexivity|].
    rewrite (step_indices_snoc n Hn1), map_app, <- app_assoc. cbn [map app].
    rewrite last_two_snoc. f_equal.
    unfold step_sample, step_alpha, step_time. rewrite E.
    cbn [num_quot binary64].
    rewrite (b64_quot_self total_time Hfin (positive_nonzero _ Ht)).
    rewrite (b64_lerp_one _ _ Hs Hf). reflexivity.
  - vm_compute. repeat split.
Qed.

Lemma C9_witness :
  (let start_pos := Vec3 (of_int 0) (of_int 1) (of_int 0) in
   let final_pos := Vec3 (decimal 52 3) (of_int 0) (decimal 966 3) in
   let run := sampler libm_rational (decimal 10 1) (decimal 1 1)
                (decimal 10 1) start_pos final_pos
                (of_int 6 * decimal 5 2)%num (decimal 5 2) in
   fst run = inr tt
   /\ last_two (snd run)
      = [Sample final_pos (of_int 6 * decimal 5 2)%num;
         Sample final_pos (of_int 6 * decimal 5 2)%num])
  /\ (let start_pos := Vec3 0%float 1%float 0%float in
      let final_pos := Vec3 0.052%float 0%float 0.966%float in
      let run := sampler libm_15deg 1%float 0.1%float 1%float
                   start_pos final_pos 1.5%float 0.05%float in
      fst run = inr tt
      /\ last_two (snd run)
         = [Sample final_pos 1.5%float; Sample final_pos 1.5%float]).
Proof.
  cbv zeta. split.
  - apply (proj1 (proj2 C9_final_sample_unconditional) libm_rational
             _ _ _ _ _ _ _ 6%Z);
      vm_compute; reflexivity.
  - apply (proj1 (proj2 (proj2 C9_final_sample_unconditional)) libm_15deg
             _ _ _ _ _ _ _ 30%Z);
      vm_compute; reflexivity.
Defined.

(** C9 as stated fails in the script's own testing run: 0.05 divides 0.3
    (six times, exactly so in exact arithmetic), yet the last two samples the
    binary64 run shows are at the times 0.25 and 0.3, the first of them short
    of the end vector. *)
Lemma C9_counterexample :
  let shown := samples (trace (snd (construct libm_15deg true))) in
  let final_pos := equilibrium_vector libm_15deg 1%float in
  (decimal 3 1 : Qc) = (of_int 6 * decimal 5 2)%num
  /\ fst (construct libm_15deg true) = inr tt
  /\ to_int (0.3 / 0.05)%float = inr 5%Z
  /\ times (last_two shown) = [0.25; 0.3]%float
  /\ last_two shown
     <> [Sample final_pos 0.3%float; Sample final_pos 0.3%float].
Proof.
  cbv zeta. split; [apply Qc_is_canon; reflexivity|].
  repeat split.
  intros E.
  apply (f_equal (fun l => match l with
                           | s :: _ => Prim2SF (time s)
                           | [] => S754_nan
                           end)) in E.
  vm_compute in E. discriminate E.
Qed.

(** ** Positions along the segment *)

Section Exact_segment.

Local Open Scope Qc_scope.

Lemma exact_mul_nonneg (x y : Qc) : 0 <= x -> 0 <= y -> 0 <= x * y.
Proof.
  intros Hx Hy. rewrite <- (Qcmult_0_l y). apply Qcmult_le_compat_r; assumption.
Qed.

Lemma exact_sub_nonneg (x y : Qc) : x <= y -> 0 <= y - x.
Proof. intros Hxy. apply Qcle_minus_iff in Hxy. exact Hxy. Qed.

(** One coordinate of the interpolation, as a function of the fraction. *)
Lemma exact_coord_monotone (a b x y : Qc) :
  a <= b -> x <= y -> (1 - x) * a + x * b <= (1 - y) * a + y * b.
Proof.
  intros Hab Hxy. apply Qcle_minus_iff.
  replace ((1 - y) * a + y * b + - ((1 - x) * a + x * b))
    with ((y - x) * (b - a)) by ring.
  apply exact_mul_nonneg; apply exact_sub_nonneg; assumption.
Qed.

Lemma exact_coord_antitone (a b x y : Qc) :
  b <= a -> x <= y -> (1 - y) * a + y * b <= (1 - x) * a + x * b.
Proof.
  intros Hab Hxy. apply Qcle_minus_iff.
  replace ((1 - x) * a + x * b + - ((1 - y) * a + y * b))
    with ((y - x) * (a - b)) by ring.
  apply exact_mul_nonneg; apply exact_sub_nonneg; assumption.
Qed.

Lemma exact_nondecreasing_map (c : Qc -> Qc) (l : list Qc) :
  (forall x y, x <= y -> c x <= c y) ->
  nondecreasing l = true -> nondecreasing (map c l) = true.
Proof.
  intros Hc. induction l as [|x l IH]; [reflexivity|].
  destruct l as [|y l]; [reflexivity|].
  cbn [nondecreasing map] in *. intros Hl.
  apply andb_prop in Hl. destruct Hl as [Hxy Hl].
  apply andb_true_intro. split; [|exact (IH Hl)].
  apply exact_leb, Hc, exact_leb, Hxy.
Qed.

Lemma exact_nonincreasing_map (c : Qc -> Qc) (l : list Qc) :
  (forall x y, x <= y -> c y <= c x) ->
  nondecreasing l = true -> nonincreasing (map c l) = true.
Proof.
  intros Hc. induction l as [|x l IH]; [reflexivity|].
  destruct l as [|y l]; [reflexivity|].
  cbn [nondecreasing nonincreasing map] in *. intros Hl.
  apply andb_prop in Hl. destruct Hl as [Hxy Hl].
  apply andb_true_intro. split; [|exact (IH Hl)].
  apply exact_leb, Hc, exact_leb, Hxy.
Qed.

(** Along fractions that start at or above 0 and do not decrease, each
    coordinate moves one way from its start value toward its end value. *)
Lemma exact_monotone_toward (a b : Qc) (alphas : list Qc) :
  nondecreasing alphas = true ->
  forallb (between (of_int 0) (of_int 1)) alphas = true ->
  monotone_toward a b
    (map (fun alpha => (of_int 1 - alpha) * a + alpha * b)%num alphas) = true.
Proof.
  intros Hs Hb.
  assert (H0 : nondecreasing (of_int 0 :: alphas) = true).
  { apply nondecreasing_cons; [exact Hs|]. intros y Hy.
    rewrite forallb_forall in Hb. specialize (Hb y Hy).
    unfold between in Hb. apply andb_prop in Hb. exact (proj1 Hb). }
  assert (Ea : a = ((of_int 1 - of_int 0) * a + of_int 0 * b)%num).
  { cbn [num_add num_sub num_mul exact].
    rewrite exact_of_int_0, exact_of_int_1. ring. }
  unfold monotone_toward.
  destruct (a <=? b)%num eqn:Hab.
  - apply exact_leb in Hab. rewrite Ea at 1.
    apply (exact_nondecreasing_map
             (fun alpha => (of_int 1 - alpha) * a + alpha * b)%num
             (of_int 0 :: alphas)); [|exact H0].
    intros x y Hxy. cbn [num_add num_sub num_mul exact].
    rewrite exact_of_int_1. apply exact_coord_monotone; assumption.
  - assert (Hba : b <= a).
    { apply Qcnot_lt_le. intros Hlt.
      apply Qclt_le_weak, exact_leb in Hlt. congruence. }
    rewrite Ea at 1.
    apply (exact_nonincreasing_map
             (fun alpha => (of_int 1 - alpha) * a + alpha * b)%num
             (of_int 0 :: alphas)); [|exact H0].
    intros x y Hxy. cbn [num_add num_sub num_mul exact].
    rewrite exact_of_int_1. apply exact_coord_antitone; assumption.
Qed.

End Exact_segment.

(** C10, as the code has it.  In exact arithmetic, for positive relaxation
    times, duration and step, the positions the run shows are
    [(1 - alpha) * start + alpha * end] for fractions [alpha] that lie in
    [[0, 1]] and do not decrease along the run, the last being 1; so each
    coordinate moves one way from its start value toward its end value, and
    every position is on the segment between the two vectors.  In binary64 the
    same holds of the two runs the script can make; it does not hold of every
    duration and step, since the last fraction can round above 1. *)
Theorem C10_positions_on_segment :
  (forall (lm : Libm Qc) (T1_ T2_ M0_ : Qc) (start_pos final_pos : vec3 Qc)
          (total_time dt : Qc),
      is_positive T1_ -> is_positive T2_ ->
      is_positive total_time -> is_positive dt ->
      let run := sampler lm T1_ T2_ M0_ start_pos final_pos total_time dt in
      fst run = inr tt
      /\ (exists alphas : list Qc,
             map (@position Qc) (snd run)
             = map (lerp start_pos final_pos) alphas
             /\ forallb (between (of_int 0) (of_int 1)) alphas = true
             /\ nondecreasing alphas = true)
      /\ monotone_toward (vx start_pos) (vx final_pos) (coords vx (snd run))
         = true
      /\ monotone_toward (vy start_pos) (vy final_pos) (coords vy (snd run))
         = true
      /\ monotone_toward (vz start_pos) (vz final_pos) (coords vz (snd run))
         = true)
  /\ (forall testing : bool,
      let shown := samples (trace (snd (construct libm_15deg testing))) in
      let total_time := if testing then 0.3%float else 1.5%float in
      let start_pos := Vec3 0%float 1%float 0%float in
      let final_pos := equilibrium_vector libm_15deg 1%float in
      let alphas := map (fun s => (time s / total_time)%float) shown in
      map (@position float) shown = map (lerp start_pos final_pos) alphas
      /\ forallb (between 0%float 1%float) alphas = true
      /\ nondecreasing alphas = true
      /\ monotone_toward (vx start_pos) (vx final_pos) (coords vx shown) = true
      /\ monotone_toward (vy start_pos) (vy final_pos) (coords vy shown) = true
      /\ monotone_toward (vz start_pos) (vz final_pos) (coords vz shown)
         = true).
Proof.
  split.
  - intros lm T1_ T2_ M0_ start_pos final_pos total_time dt H1 H2 Ht Hd run.
    subst run.
    assert (Hn : exists n, to_int (total_time / dt)%num = inr n)
      by (eexists; reflexivity).
    destruct Hn as [n Hn].
    rewrite (sampler_closed_form lm _ _ _ _ _ _ _ n)
      by (try apply positive_nonzero; assumption).
    cbn [fst snd]. split; [reflexivity|].
    pose proof (proj1 (exact_positive _) Ht) as Ht'.
    pose proof (proj1 (exact_positive _) Hd) as Hd'.
    set (alphas := map (step_alpha total_time dt) (step_indices n)
                   ++ [of_int 1]).
    assert (Hpos : map (@position Qc)
                     (map (step_sample start_pos final_pos total_time dt)
                          (step_indices n)
                      ++ [Sample final_pos total_time])
                   = map (lerp start_pos final_pos) alphas).
    { subst alphas. rewrite !map_app, !map_map. cbn [map position step_sample].
      rewrite exact_lerp_one. reflexivity. }
    assert (Hbetween : forallb (between (of_int 0) (of_int 1)) alphas = true).
    { subst alphas. rewrite forallb_app. apply andb_true_intro. split.
      - apply forallb_forall. intros a Hin.
        apply in_map_iff in Hin. destruct Hin as (i & <- & Hi).
        apply step_indices_range in Hi.
        unfold between. apply andb_true_intro.
        split; apply exact_leb; unfold step_alpha, step_time;
          cbn [num_mul num_quot exact].
        + rewrite exact_of_int_0.
          apply exact_alpha_nonneg; [assumption..|lia].
        + rewrite exact_of_int_1.
          apply (exact_alpha_le_1 total_time dt n Ht' Hd' Hn). lia.
      - reflexivity. }
    assert (Hsorted : nondecreasing alphas = true).
    { subst alphas. apply nondecreasing_snoc.
      - unfold step_indices. apply nondecreasing_map_seq. intros i _.
        apply exact_leb. unfold step_alpha, step_time.
        apply exact_alpha_step; assumption.
      - intros a Hin. apply in_map_iff in Hin. destruct Hin as (i & <- & Hi).
        apply step_indices_range in Hi. apply exact_leb.
        unfold step_alpha, step_time. cbn [num_mul num_quot exact].
        rewrite exact_of_int_1.
        apply (exact_alpha_le_1 total_time dt n Ht' Hd' Hn). lia. }
    split; [exists alphas; repeat split; assumption|].
    assert (Hc : forall proj : vec3 Qc -> Qc,
               coords proj
                 (map (step_sample start_pos final_pos total_time dt)
                      (step_indices n)
                  ++ [Sample final_pos total_time])
               = map proj (map (lerp start_pos final_pos) alphas)).
    { intros proj. rewrite <- Hpos. unfold coords. rewrite map_map.
      reflexivity. }
    rewrite !Hc, !map_map. cbn [lerp vadd scale vx vy vz].
    repeat split; apply exact_monotone_toward; assumption.
  - intros [|]; vm_compute; repeat split.
Qed.

Lemma C10_witness :
  let start_pos := Vec3 (of_int 0) (of_int 1) (of_int 0) in
  let final_pos := Vec3 (decimal 52 3) (of_int 0) (decimal 966 3) in
  let run := sampler libm_rational (of_int 1) (decimal 1 1) (of_int 1)
               start_pos final_pos (decimal 28 1) (decimal 8 2) in
  fst run = inr tt
  /\ (exists alphas : list Qc,
         map (@position Qc) (snd run) = map (lerp start_pos final_pos) alphas
         /\ forallb (between (of_int 0) (of_int 1)) alphas = true
         /\ nondecreasing alphas = true)
  /\ monotone_toward (vx start_pos) (vx final_pos) (coords vx (snd run)) = true
  /\ monotone_toward (vy start_pos) (vy final_pos) (coords vy (snd run)) = true
  /\ monotone_toward (vz start_pos) (vz final_pos) (coords vz (snd run))
     = true.
Proof.
  cbv zeta.
  apply (proj1 C10_positions_on_segment); vm_compute; reflexivity.
Defined.

(** C10 as stated fails in binary64: for a duration of 2.8 and a step of 0.08
    the 35th fraction, [35 * 0.08 / 2.8], is the float 1.0000000000000002,
    above 1; the position it gives has passed the end vector (its second
    coordinate is negative, where the segment runs from 1 to 0), and the final
    sample brings every coordinate back. *)
Lemma C10_counterexample :
  let start_pos := Vec3 0%float 1%float 0%float in
  let final_pos := Vec3 0.052%float 0%float 0.966%float in
  let run := sampler libm_15deg 1%float 0.1%float 1%float
               start_pos final_pos 2.8%float 0.08%float in
  let alpha := (of_int 35 * 0.08 / 2.8)%float in
  fst run = inr tt
  /\ alpha = 1.0000000000000002%float
  /\ between 0%float 1%float alpha = false
  /\ nth_error (snd run) 34
     = Some (Sample (lerp start_pos final_pos alpha) 2.8000000000000003%float)
  /\ option_map (fun s => vy (position s)) (nth_error (snd run) 34)
     = Some (-2.220446049250313e-16)%float
  /\ monotone_toward (vx start_pos) (vx final_pos) (coords vx (snd run))
     = false
  /\ monotone_toward (vy start_pos) (vy final_pos) (coords vy (snd run))
     = false
  /\ monotone_toward (vz start_pos) (vz final_pos) (coords vz (snd run))
     = false.
Proof. vm_compute. repeat split. Qed.

(** ** Further properties of the run *)

Section Raises.

Context {F : Type} `{Number F}.
Variable lm : Libm F.

Local Open Scope num_scope.
Local Open Scope scene_scope.

Lemma relaxation_step_raise_T2 (start_pos final_pos : vec3 F)
    (total_time dt : F) (i : Z) (s : scene F) :
  (T2 s =? of_int 0) = true ->
  relaxation_step lm start_pos final_pos total_time dt i s
  = (inl ZeroDivisionError, s).
Proof.
  intros H2. unfold relaxation_step, bind, get.
  rewrite (truediv_zero _ _ _ H2). reflexivity.
Qed.

Lemma relaxation_loop_zero_T2 (start_pos final_pos : vec3 F)
    (total_time dt : F) (n : Z) (s : scene F) :
  is_nonzero dt -> to_int (total_time / dt) = inr n -> (1 <= n)%Z ->
  (T2 s =? of_int 0) = true ->
  relaxation_loop lm start_pos final_pos total_time dt s
  = (inl ZeroDivisionError, s).
Proof.
  intros Hd Hn Hn1 H2. unfold relaxation_loop, bind at 1.
  rewrite (truediv_nonzero _ _ _ Hd). unfold bind at 1, lift. rewrite Hn.
  unfold for_range.
  destruct (Z.to_nat n) as [|k] eqn:Hk; [lia|].
  cbn [for_range_from]. unfold bind.
  rewrite relaxation_step_raise_T2 by exact H2. reflexivity.
Qed.

End Raises.

(** A step of zero makes [total_time / dt] raise [ZeroDivisionError] before
    anything is shown: the script rejects the input by raising, not by a
    check of its own. *)
Theorem zero_step_raises {F : Type} `{Number F} (lm : Libm F)
    (T1_ T2_ M0_ : F) (start_pos final_pos : vec3 F) (total_time dt : F) :
  (dt =? of_int 0)%num = true ->
  sampler lm T1_ T2_ M0_ start_pos final_pos total_time dt
  = (inl ZeroDivisionError, []).
Proof.
  intros Hd. unfold sampler, relaxation, bind.
  rewrite relaxation_loop_zero_step by assumption. reflexivity.
Qed.

Lemma zero_step_raises_witness :
  sampler libm_15deg 1%float 0.1%float 1%float
    (Vec3 0%float 1%float 0%float) (Vec3 0.052%float 0%float 0.966%float)
    0.3%float 0%float
  = (inl ZeroDivisionError, []).
Proof. apply (zero_step_raises libm_15deg). vm_compute. reflexivity. Defined.

(** A transverse relaxation time of zero makes the first iteration raise
    [ZeroDivisionError], at [-t / self.T2], although the quotient reaches no
    sample: with at least one step, nothing is shown at all. *)
Theorem zero_T2_raises {F : Type} `{Number F} (lm : Libm F)
    (T1_ T2_ M0_ : F) (start_pos final_pos : vec3 F) (total_time dt : F)
    (n : Z) :
  is_nonzero dt -> to_int (total_time / dt)%num = inr n -> (1 <= n)%Z ->
  (T2_ =? of_int 0)%num = true ->
  sampler lm T1_ T2_ M0_ start_pos final_pos total_time dt
  = (inl ZeroDivisionError, []).
Proof.
  intros Hd Hn Hn1 H2. unfold sampler, relaxation, bind.
  rewrite (relaxation_loop_zero_T2 lm _ _ _ _ n) by assumption.
  reflexivity.
Qed.

Lemma zero_T2_raises_witness :
  sampler libm_15deg 1%float 0%float 1%float
    (Vec3 0%float 1%float 0%float) (Vec3 0.052%float 0%float 0.966%float)
    0.3%float 0.05%float
  = (inl ZeroDivisionError, []).
Proof.
  apply (zero_T2_raises libm_15deg _ _ _ _ _ _ _ 5%Z);
    solve [vm_compute; reflexivity | lia].
Defined.

(** ** How a run of the relaxation ends *)

Section Outcomes.

Context {F : Type} `{Number F}.
Variable lm : Libm F.

Local Open Scope num_scope.
Local Open Scope scene_scope.

Lemma relaxation_step_raise_T1 (start_pos final_pos : vec3 F)
    (total_time dt : F) (i : Z) (s : scene F) :
  is_nonzero (T2 s) -> (T1 s =? of_int 0) = true ->
  relaxation_step lm start_pos final_pos total_time dt i s
  = (inl ZeroDivisionError, s).
Proof.
  intros H2 H1. unfold relaxation_step, bind, get.
  rewrite (truediv_nonzero _ _ _ H2), (truediv_zero _ _ _ H1).
  reflexivity.
Qed.

Lemma relaxation_loop_zero_T1 (start_pos final_pos : vec3 F)
    (total_time dt : F) (n : Z) (s : scene F) :
  is_nonzero dt -> to_int (total_time / dt) = inr n -> (1 <= n)%Z ->
  is_nonzero (T2 s) -> (T1 s =? of_int 0) = true ->
  relaxation_loop lm start_pos final_pos total_time dt s
  = (inl ZeroDivisionError, s).
Proof.
  intros Hd Hn Hn1 H2 H1. unfold relaxation_loop, bind at 1.
  rewrite (truediv_nonzero _ _ _ Hd). unfold bind at 1, lift. rewrite Hn.
  unfold for_range.
  destruct (Z.to_nat n) as [|k] eqn:Hk; [lia|].
  cbn [for_range_from]. unfold bind.
  rewrite relaxation_step_raise_T1 by assumption. reflexivity.
Qed.

Lemma step_indices_nonpos (n : Z) : (n <= 0)%Z -> step_indices n = [].
Proof.
  intros Hn. unfold step_indices. replace (Z.to_nat n) with 0%nat by lia.
  reflexivity.
Qed.

(** Without the parameter display the first iteration raises when it
    reaches [update_parameter_display], before the arrow is moved. *)
Lemma relaxation_step_no_display (start_pos final_pos : vec3 F)
    (total_time dt : F) (i : Z) (s : scene F) :
  has_display (trace s) = false ->
  is_nonzero (T1 s) -> is_nonzero (T2 s) -> is_nonzero total_time ->
  relaxation_step lm start_pos final_pos total_time dt i s
  = (inl AttributeError, s).
Proof.
  intros Hs H1 H2 Ht. unfold relaxation_step, bind, get.
  rewrite (truediv_nonzero _ _ _ H2), (truediv_nonzero _ _ _ H1),
    (truediv_nonzero _ _ _ Ht).
  rewrite update_parameter_display_raise by exact Hs. reflexivity.
Qed.

Lemma relaxation_loop_no_display (start_pos final_pos : vec3 F)
    (total_time dt : F) (n : Z) (s : scene F) :
  has_display (trace s) = false ->
  is_nonzero (T1 s) -> is_nonzero (T2 s) -> is_nonzero total_time ->
  is_nonzero dt -> to_int (total_time / dt) = inr n -> (1 <= n)%Z ->
  relaxation_loop lm start_pos final_pos total_time dt s
  = (inl AttributeError, s).
Proof.
  intros Hs H1 H2 Ht Hd Hn Hn1. unfold relaxation_loop, bind at 1.
  rewrite (truediv_nonzero _ _ _ Hd). unfold bind at 1, lift. rewrite Hn.
  unfold for_range.
  destruct (Z.to_nat n) as [|k] eqn:Hk; [lia|].
  cbn [for_range_from]. unfold bind.
  rewrite relaxation_step_no_display by assumption. reflexivity.
Qed.

(** The two ways a run of the loop ends on a scene that has the parameter
    display: it raises and the scene is as it was, or it returns after the
    engine calls of the steps [1, ..., n]. *)
Lemma relaxation_loop_cases (start_pos final_pos : vec3 F)
    (total_time dt : F) (s : scene F) :
  has_display (trace s) = true ->
  (exists e,
      relaxation_loop lm start_pos final_pos total_time dt s = (inl e, s))
  \/ (exists n,
         is_nonzero dt /\ to_int (total_time / dt) = inr n
         /\ relaxation_loop lm start_pos final_pos total_time dt s
            = (inr tt,
               with_trace s
                 (trace s ++
                  flat_map (step_events start_pos final_pos total_time dt)
                           (step_indices n)))).
Proof.
  intros Hs.
  destruct (dt =? of_int 0) eqn:Hd.
  { left. exists ZeroDivisionError.
    apply relaxation_loop_zero_step. exact Hd. }
  destruct (to_int (total_time / dt)) as [e|n] eqn:Hn.
  { left. exists e. apply relaxation_loop_no_count; assumption. }
  destruct (Z.to_nat n) as [|k] eqn:Hk.
  { right. exists n. split; [exact Hd|]. split; [reflexivity|].
    rewrite (relaxation_loop_skip lm _ _ _ _ n) by (try assumption; lia).
    rewrite step_indices_nonpos by lia.
    cbn [flat_map]. rewrite app_nil_r, with_trace_same. reflexivity. }
  destruct (T2 s =? of_int 0) eqn:H2.
  { left. exists ZeroDivisionError.
    apply (relaxation_loop_zero_T2 lm _ _ _ _ n); try assumption. lia. }
  destruct (T1 s =? of_int 0) eqn:H1.
  { left. exists ZeroDivisionError.
    apply (relaxation_loop_zero_T1 _ _ _ _ n); try assumption. lia. }
  destruct (total_time =? of_int 0) eqn:Ht.
  { left. exists ZeroDivisionError.
    apply (relaxation_loop_zero_duration lm _ _ _ _ n k); assumption. }
  right. exists n. split; [exact Hd|]. split; [reflexivity|].
  apply relaxation_loop_run; assumption.
Qed.

Lemma relaxation_cases (start_pos final_pos : vec3 F)
    (total_time dt : F) (s : scene F) :
  has_display (trace s) = true ->
  (exists e,
      relaxation lm start_pos final_pos total_time dt s = (inl e, s))
  \/ (exists n,
         is_nonzero dt /\ to_int (total_time / dt) = inr n
         /\ relaxation lm start_pos final_pos total_time dt s
            = (inr tt,
               with_trace s
                 (trace s ++
                  flat_map (step_events start_pos final_pos total_time dt)
                           (step_indices n)
                  ++ final_events final_pos total_time dt))).
Proof.
  intros Hs.
  destruct (relaxation_loop_cases start_pos final_pos total_time dt s Hs)
    as [[e He]|(n & Hd & Hn & Hrun)].
  - left. exists e. unfold relaxation, bind. rewrite He. reflexivity.
  - right. exists n. split; [exact Hd|]. split; [exact Hn|].
    unfold relaxation, bind. rewrite Hrun.
    rewrite relaxation_final_run
      by (cbn [trace with_trace]; apply has_display_app; exact Hs).
    cbn [trace with_trace]. rewrite with_trace_twice, <- app_assoc.
    reflexivity.
Qed.

(** Without the parameter display no run of the relaxation returns. *)
Lemma relaxation_no_display (start_pos final_pos : vec3 F)
    (total_time dt : F) (s : scene F) :
  has_display (trace s) = false ->
  exists e, fst (relaxation lm start_pos final_pos total_time dt s) = inl e.
Proof.
  intros Hs. unfold relaxation, bind.
  destruct (dt =? of_int 0) eqn:Hd.
  { rewrite relaxation_loop_zero_step by assumption. eexists. reflexivity. }
  destruct (to_int (total_time / dt)) as [e|n] eqn:Hn.
  { rewrite (relaxation_loop_no_count lm _ _ _ _ e) by assumption.
    eexists. reflexivity. }
  destruct (Z_le_gt_dec n 0) as [Hle|Hgt].
  { rewrite (relaxation_loop_skip lm _ _ _ _ n) by assumption.
    rewrite relaxation_final_raise by exact Hs. eexists. reflexivity. }
  assert (Hk : exists k, Z.to_nat n = S k)
    by (exists (Z.to_nat n - 1)%nat; lia).
  destruct Hk as [k Hk].
  destruct (T2 s =? of_int 0) eqn:H2.
  { rewrite (relaxation_loop_zero_T2 lm _ _ _ _ n) by (assumption || lia).
    eexists. reflexivity. }
  destruct (T1 s =? of_int 0) eqn:H1.
  { rewrite (relaxation_loop_zero_T1 _ _ _ _ n) by (assumption || lia).
    eexists. reflexivity. }
  destruct (total_time =? of_int 0) eqn:Ht.
  { rewrite (relaxation_loop_zero_duration lm _ _ _ _ n k) by assumption.
    eexists. reflexivity. }
  rewrite (relaxation_loop_no_display _ _ _ _ n) by (assumption || lia).
  eexists. reflexivity.
Qed.

Lemma transforms_app (a b : list (event F)) :
  transforms (a ++ b) = transforms a ++ transforms b.
Proof.
  induction a as [|e a IH]; [reflexivity|].
  destruct e; simpl; rewrite IH; reflexivity.
Qed.

Lemma transforms_steps (start_pos final_pos : vec3 F) (total_time dt : F)
    (l : list Z) :
  transforms (flat_map (step_events start_pos final_pos total_time dt) l)
  = map (fun s => (position s, dt))
        (map (step_sample start_pos final_pos total_time dt) l).
Proof.
  induction l as [|i l IH]; [reflexivity|].
  simpl. rewrite IH. reflexivity.
Qed.

Lemma run_times_steps (dt : F) (l : list (sample F)) :
  map snd (map (fun x : sample F => (position x, dt)) l)
  = repeat dt (length l).
Proof.
  induction l as [|x l IH]; [reflexivity|].
  cbn [map snd length repeat]. rewrite IH. reflexivity.
Qed.

(** The [Transform]s of a run that returns: those of the steps and the
    final one. *)
Lemma relaxation_transforms (start_pos final_pos : vec3 F)
    (total_time dt : F) (s : scene F) :
  fst (relaxation lm start_pos final_pos total_time dt s) = inr tt ->
  exists n,
    to_int (total_time / dt) = inr n
    /\ transforms (trace (snd (relaxation lm start_pos final_pos total_time
                                 dt s)))
       = transforms (trace s)
         ++ map (fun x : sample F => (position x, dt))
                (map (step_sample start_pos final_pos total_time dt)
                     (step_indices n)
                 ++ [Sample final_pos total_time]).
Proof.
  intros Hret.
  destruct (has_display (trace s)) eqn:Hs.
  - destruct (relaxation_cases start_pos final_pos total_time dt s Hs)
      as [[e He]|(n & Hd & Hn & Hrun)].
    + rewrite He in Hret. discriminate Hret.
    + exists n. split; [exact Hn|]. rewrite Hrun.
      cbn [snd trace with_trace].
      rewrite !transforms_app, transforms_steps, map_app. reflexivity.
  - destruct (relaxation_no_display start_pos final_pos total_time dt s Hs)
      as [e He].
    rewrite He in Hret. discriminate Hret.
Qed.




End Outcomes.

(** The sampler shows all of the trajectory or nothing.  A run that raises
    has shown no sample, whatever made it raise: the step count, or a
    division of the first iteration.  A run that returns has shown the
    samples of the steps [1, ..., n], for the step count [n], and then the
    end vector at [total_time]. *)
Theorem sampler_all_or_nothing {F : Type} `{Number F} (lm : Libm F)
    (T1_ T2_ M0_ : F) (start_pos final_pos : vec3 F) (total_time dt : F) :
  match sampler lm T1_ T2_ M0_ start_pos final_pos total_time dt with
  | (inl _, shown) => shown = []
  | (inr _, shown) =>
      exists n,
        to_int (total_time / dt)%num = inr n
        /\ shown = map (step_sample start_pos final_pos total_time dt)
                       (step_indices n)
                   ++ [Sample final_pos total_time]
  end.
Proof.
  unfold sampler.
  destruct (relaxation_cases lm start_pos final_pos total_time dt
              (sampler_scene T1_ T2_ M0_) eq_refl)
    as [[e He]|(n & Hd & Hn & Hrun)].
  - rewrite He. reflexivity.
  - rewrite Hrun. cbn [fst snd trace with_trace sampler_scene app samples].
    exists n. split; [exact Hn|].
    rewrite samples_app, samples_steps. reflexivity.
Qed.

(** The runs of the relaxation that return, from any scene and for any
    arguments.  The parameter display must exist, that is
    [create_parameter_display] must have run; the step must not be zero and
    [int()] must accept the quotient [total_time / dt]; then either the step
    count is not positive, and nothing else is looked at, or [self.T2],
    [self.T1] and [total_time] are all different from zero, the three
    divisors of an iteration.  Every other run raises. *)
Theorem relaxation_returns_iff {F : Type} `{Number F} (lm : Libm F)
    (s : scene F) (start_pos final_pos : vec3 F) (total_time dt : F) :
  fst (relaxation lm start_pos final_pos total_time dt s) = inr tt
  <-> has_display (trace s) = true
      /\ is_nonzero dt
      /\ exists n,
           to_int (total_time / dt)%num = inr n
           /\ ((n <= 0)%Z
               \/ (is_nonzero (T2 s) /\ is_nonzero (T1 s)
                   /\ is_nonzero total_time)).
Proof.
  unfold relaxation, bind, is_nonzero.
  destruct (dt =? of_int 0)%num eqn:Hd.
  { rewrite relaxation_loop_zero_step by assumption. cbn [fst].
    split; [discriminate|]. intros (_ & E & _). discriminate E. }
  destruct (to_int (total_time / dt)%num) as [e|n] eqn:Hn.
  { rewrite (relaxation_loop_no_count lm _ _ _ _ e) by assumption. cbn [fst].
    split; [discriminate|]. intros (_ & _ & n & E & _). discriminate E. }
  destruct (Z_le_gt_dec n 0) as [Hle|Hgt].
  { rewrite (relaxation_loop_skip lm _ _ _ _ n) by assumption.
    destruct (has_display (trace s)) eqn:Hs.
    - rewrite relaxation_final_run by exact Hs. cbn [fst].
      split; [|reflexivity]. intros _. do 2 (split; [reflexivity|]).
      exists n. split; [reflexivity|]. left. exact Hle.
    - rewrite relaxation_final_raise by exact Hs. cbn [fst].
      split; [discriminate|]. intros (E & _). discriminate E. }
  assert (Hk : exists k, Z.to_nat n = S k)
    by (exists (Z.to_nat n - 1)%nat; lia).
  destruct Hk as [k Hk].
  destruct (T2 s =? of_int 0)%num eqn:H2.
  { rewrite (relaxation_loop_zero_T2 lm _ _ _ _ n) by (assumption || lia).
    cbn [fst]. split; [discriminate|].
    intros (_ & _ & n' & E & [Hle|(E2 & _)]); [|discriminate E2].
    inversion E. lia. }
  destruct (T1 s =? of_int 0)%num eqn:H1.
  { rewrite (relaxation_loop_zero_T1 lm _ _ _ _ n) by (assumption || lia).
    cbn [fst]. split; [discriminate|].
    intros (_ & _ & n' & E & [Hle|(_ & E1 & _)]); [|discriminate E1].
    inversion E. lia. }
  destruct (total_time =? of_int 0)%num eqn:Ht.
  { rewrite (relaxation_loop_zero_duration lm _ _ _ _ n k) by assumption.
    cbn [fst]. split; [discriminate|].
    intros (_ & _ & n' & E & [Hle|(_ & _ & Et)]); [|discriminate Et].
    inversion E. lia. }
  destruct (has_display (trace s)) eqn:Hs.
  - rewrite (relaxation_loop_run lm _ _ _ _ n) by assumption.
    rewrite relaxation_final_run
      by (cbn [trace with_trace]; apply has_display_app; exact Hs).
    cbn [fst].
    split; [|reflexivity]. intros _. do 2 (split; [reflexivity|]).
    exists n. split; [reflexivity|]. right. repeat split; reflexivity.
  - rewrite (relaxation_loop_no_display lm _ _ _ _ n) by (assumption || lia).
    cbn [fst]. split; [discriminate|]. intros (E & _). discriminate E.
Qed.

(** The arrow follows the readout.  From a scene that has the parameter
    display, and for any arguments, the relaxation only adds engine calls to
    the trace, and among those the positions [Transform] sends the arrow to
    are the positions [update_parameter_display] shows, in the same order,
    each [Transform] played with [run_time = dt]. *)
Theorem arrow_follows_readout {F : Type} `{Number F} (lm : Libm F)
    (s : scene F) (start_pos final_pos : vec3 F) (total_time dt : F) :
  has_display (trace s) = true ->
  exists shown : list (event F),
    trace (snd (relaxation lm start_pos final_pos total_time dt s))
    = trace s ++ shown
    /\ transforms shown = map (fun x => (position x, dt)) (samples shown).
Proof.
  intros Hs.
  destruct (relaxation_cases lm start_pos final_pos total_time dt s Hs)
    as [[e He]|(n & Hd & Hn & Hrun)].
  - exists []. rewrite He. cbn [snd]. rewrite app_nil_r. split; reflexivity.
  - eexists. rewrite Hrun. cbn [snd trace with_trace]. split; [reflexivity|].
    rewrite transforms_app, samples_app, map_app, transforms_steps,
      samples_steps.
    reflexivity.
Qed.

Lemma arrow_follows_readout_witness :
  let s := sampler_scene 1%float 0.1%float 1%float in
  has_display (trace s) = true
  /\ exists shown : list (event float),
       trace (snd (relaxation libm_15deg
                     (Vec3 0%float 1%float 0%float)
                     (Vec3 0.052%float 0%float 0.966%float)
                     0.3%float 0.05%float s))
       = trace s ++ shown
       /\ transforms shown
          = map (fun x => (position x, 0.05%float)) (samples shown).
Proof.
  split; [reflexivity|].
  apply (arrow_follows_readout libm_15deg
           (sampler_scene 1%float 0.1%float 1%float)).
  reflexivity.
Defined.

(** ** The whole run: the order of the engine calls *)

Section Whole_run.

Context {F : Type} `{Number F}.
Variable lm : Libm F.

Local Open Scope num_scope.
Local Open Scope scene_scope.

Lemma apply_rf_pulse_enhanced_run (s : scene F) :
  apply_rf_pulse_enhanced s
  = (inr tt,
     with_trace s
       (trace s ++
        [ev_status RF_Pulse_Applied; ev_camera;
         ev_pulse (Vec3 (of_int 0) (M0 s) (of_int 0));
         ev_create_display (Vec3 (decimal 0 1) (M0 s) (decimal 0 1))
                           (decimal 0 1)])).
Proof.
  unfold apply_rf_pulse_enhanced, create_parameter_display, bind, emit, get.
  cbn [trace with_trace M0 testing_mode T1 T2 equilibrium_end].
  rewrite <- !app_assoc. reflexivity.
Qed.






End Whole_run.


(** ** The play time of the relaxation *)

Section Exact_play_time.

Local Open Scope Qc_scope.

Lemma play_time_steps (dt : Qc) (l : list (sample Qc)) :
  fold_right Qcplus 0 (map snd (map (fun x => (position x, dt)) l))
  = of_int (Z.of_nat (length l)) * dt.
Proof.
  induction l as [|x l IH].
  - cbn [map fold_right length]. change (Z.of_nat 0) with 0%Z.
    rewrite exact_of_int_0. ring.
  - cbn [map fold_right length snd]. rewrite IH.
    replace (Z.of_nat (S (length l))) with (1 + Z.of_nat (length l))%Z by lia.
    assert (E : of_int (1 + Z.of_nat (length l))
                = 1 + of_int (Z.of_nat (length l))).
    { apply Qc_is_canon. rewrite this_plus, !this_of_int.
      change (this 1) with 1%Q. rewrite inject_Z_plus. reflexivity. }
    rewrite E. ring.
Qed.

Lemma exact_of_int_succ (n : Z) : of_int (n + 1) = of_int n + 1.
Proof.
  apply Qc_is_canon. rewrite this_plus, !this_of_int.
  change (this 1) with 1%Q. rewrite inject_Z_plus. reflexivity.
Qed.

Lemma exact_steps_upper (total_time dt : Qc) (n : Z) :
  0 < total_time -> 0 < dt -> to_int (total_time / dt)%num = inr n ->
  total_time < of_int (n + 1) * dt.
Proof.
  intros Ht Hd Hn.
  assert (Hq : 0 <= total_time / dt)
    by (apply exact_quot_nonneg; [apply Qclt_le_weak|]; assumption).
  destruct (exact_to_int_bounds _ _ Hq Hn) as [_ Hhi].
  rewrite <- (exact_quot_mul total_time dt) at 1
    by (intros E; subst dt; exact (Qclt_not_eq _ _ Hd eq_refl)).
  apply Qcmult_lt_compat_r; assumption.
Qed.

End Exact_play_time.

(** The [Transform]s of the relaxation and the play time they ask for.  A
    run that returns, from any scene and in any arithmetic, has played
    [n + 1] new [Transform]s, one for each of the [n] steps and one for the
    final state, [n] being the step count, each with [run_time = dt].  In
    exact arithmetic, for a positive duration and step, their run times add
    up to more than [total_time], by at most one step.  In binary64, added
    one by one, the six run times of the testing run give the float 0.3,
    which is [total_time] itself, the step count being 5 where the exact one
    is 6; the thirty-one of the full-quality run give 1.5500000000000007 for
    a [total_time] of 1.5. *)
Theorem relaxation_play_time :
  (forall (F : Type) (N : Number F) (lm : Libm F) (s : scene F)
          (start_pos final_pos : vec3 F) (total_time dt : F),
      let run := relaxation lm start_pos final_pos total_time dt s in
      fst run = inr tt ->
      exists n : Z,
        to_int (total_time / dt)%num = inr n
        /\ map snd (transforms (trace (snd run)))
           = map snd (transforms (trace s)) ++ repeat dt (Z.to_nat n + 1))
  /\ (forall (lm : Libm Qc) (T1_ T2_ M0_ : Qc)
             (start_pos final_pos : vec3 Qc) (total_time dt : Qc),
      is_nonzero T1_ -> is_nonzero T2_ ->
      is_positive total_time -> is_positive dt ->
      let tr := trace (snd (relaxation lm start_pos final_pos total_time dt
                              (sampler_scene T1_ T2_ M0_))) in
      (total_time < play_time tr)%Qc /\ (play_time tr <= total_time + dt)%Qc)
  /\ (forall (lm : Libm float) (start_pos final_pos : vec3 float),
      let tr := trace (snd (relaxation lm start_pos final_pos
                              0.3%float 0.05%float
                              (sampler_scene 1%float 0.1%float 1%float))) in
      map snd (transforms tr) = repeat 0.05%float 6
      /\ play_time tr = 0.3%float)
  /\ (forall (lm : Libm float) (start_pos final_pos : vec3 float),
      let tr := trace (snd (relaxation lm start_pos final_pos
                              1.5%float 0.05%float
                              (sampler_scene 1%float 0.1%float 1%float))) in
      map snd (transforms tr) = repeat 0.05%float 31
      /\ play_time tr = 1.5500000000000007%float
      /\ (1.5 <? play_time tr)%float = true).
Proof.
  split; [|split; [|split]].
  - intros F N lm s start_pos final_pos total_time dt run Hret. subst run.
    destruct (relaxation_transforms lm _ _ _ _ _ Hret) as (n & Hn & E).
    exists n. split; [exact Hn|].
    rewrite E, map_app, run_times_steps.
    rewrite length_app, length_map, step_indices_length. reflexivity.
  - intros lm T1_ T2_ M0_ start_pos final_pos total_time dt H1 H2 Ht Hd tr.
    pose proof (positive_nonzero _ Ht) as Ht0.
    pose proof (positive_nonzero _ Hd) as Hd0.
    destruct (to_int (total_time / dt)%num) as [e|n] eqn:Hn;
      [cbn in Hn; discriminate|].
    assert (Hn0 : (0 <= n)%Z)
      by (apply (steps_nonneg total_time dt); assumption).
    assert (E : play_time tr = (of_int (n + 1) * dt)%Qc).
    { unfold tr, relaxation, bind.
      rewrite (relaxation_loop_run lm _ _ _ _ n)
        by (assumption || reflexivity).
      rewrite relaxation_final_run by reflexivity.
      cbn [snd trace with_trace sampler_scene app]. unfold play_time.
      cbn [transforms].
      rewrite transforms_app, transforms_steps.
      change (transforms (final_events final_pos total_time dt))
        with (map (fun x : sample Qc => (position x, dt))
                  [Sample final_pos total_time]).
      rewrite <- map_app, play_time_steps.
      rewrite length_app, length_map, step_indices_length. cbn [length].
      do 2 f_equal. lia. }
    rewrite E. apply exact_positive in Ht, Hd.
    split; [apply exact_steps_upper; assumption|].
    rewrite exact_of_int_succ.
    pose proof (exact_steps_bound total_time dt n Ht Hd Hn) as Hlo.
    replace ((of_int n + 1) * dt)%Qc with (of_int n * dt + dt)%Qc by ring.
    apply Qcplus_le_compat; [exact Hlo | apply Qcle_refl].
  - intros lm start_pos final_pos tr.
    assert (E : map snd (transforms tr) = repeat 0.05%float 6).
    { unfold tr, relaxation, bind.
      rewrite (relaxation_loop_run lm _ _ _ _ 5)
        by (vm_compute; reflexivity).
      rewrite relaxation_final_run by reflexivity.
      reflexivity. }
    split; [exact E|]. unfold play_time. rewrite E. reflexivity.
  - intros lm start_pos final_pos tr.
    assert (E : map snd (transforms tr) = repeat 0.05%float 31).
    { unfold tr, relaxation, bind.
      rewrite (relaxation_loop_run lm _ _ _ _ 30)
        by (vm_compute; reflexivity).
      rewrite relaxation_final_run by reflexivity.
      reflexivity. }
    split; [exact E|]. unfold play_time. rewrite E.
    split; vm_compute; reflexivity.
Qed.

Lemma relaxation_play_time_witness :
  (let run := relaxation libm_15deg
                (Vec3 0%float 1%float 0%float)
                (Vec3 0.052%float 0%float 0.966%float)
                0.3%float 0.05%float
                (sampler_scene 1%float 0.1%float 1%float) in
   exists n : Z,
     to_int (0.3%float / 0.05%float)%num = inr n
     /\ map snd (transforms (trace (snd run)))
        = map snd (transforms
                     (trace (sampler_scene 1%float 0.1%float 1%float)))
          ++ repeat 0.05%float (Z.to_nat n + 1))
  /\ (let tr := trace (snd (relaxation libm_rational
                              (Vec3 (of_int 0) (of_int 1) (of_int 0))
                              (Vec3 (decimal 1 1) (of_int 0) (of_int 1))
                              (decimal 3 1) (decimal 8 2)
                              (sampler_scene (of_int 1) (decimal 1 1)
                                             (of_int 1)))) in
      (decimal 3 1 < play_time tr)%Qc
      /\ (play_time tr <= decimal 3 1 + decimal 8 2)%Qc).
Proof.
  split.
  - apply (proj1 relaxation_play_time float binary64 libm_15deg
             (sampler_scene 1%float 0.1%float 1%float)
             (Vec3 0%float 1%float 0%float)
             (Vec3 0.052%float 0%float 0.966%float)
             0.3%float 0.05%float).
    vm_compute. reflexivity.
  - apply (proj1 (proj2 relaxation_play_time) libm_rational);
      vm_compute; reflexivity.
Defined.

(** ** The first step of the loop *)

Section Binary64_first_step.

Local Open Scope Z_scope.

Lemma Zdigits2_bounds (m : Z) :
  1 <= m -> 2 ^ (Zdigits2 m - 1) <= m < 2 ^ Zdigits2 m.
Proof.
  intros Hm. destruct m as [|p|p]; try lia.
  cbn [Zdigits2]. apply digits2_bounds.
Qed.

Lemma stage_at_least_one (m e : Z) (loc : location) :
  at_least_one m e ->
  at_least_one
    (shr_m (fst (shr_fexp prec emax m e loc)))
    (snd (shr_fexp prec emax m e loc)).
Proof.
  intros [Hm He]. unfold shr_fexp.
  destruct (shr_stage m e (fexp prec emax (Zdigits2 m + e) - e) loc
              ltac:(lia)) as [Hm1 He1].
  rewrite Hm1, He1. clear Hm1 He1.
  pose proof (Zdigits2_bounds m Hm) as Hd.
  set (d := Zdigits2 m) in *.
  assert (Hd1 : 1 <= d).
  { destruct (Z_lt_le_dec d 1) as [Hlt|]; [|assumption].
    assert (2 ^ d <= 2 ^ 0) by (destruct (Z_lt_le_dec d 0);
      [rewrite Z.pow_neg_r by lia; cbn; lia
      |apply Z.pow_le_mono_r; lia]).
    change (2 ^ 0) with 1 in *. lia. }
  set (E := fexp prec emax (d + e)).
  assert (HE : E = Z.max (d + e - 53) (-1074)) by reflexivity.
  destruct (Z.max_spec (E - e) 0) as [[Hlt ->]|[Hle ->]].
  - (* no shift *)
    change (2 ^ 0) with 1. rewrite Z.div_1_r, Z.add_0_r. split; assumption.
  - (* shifted to exponent [E] *)
    replace (e + (E - e)) with E by lia.
    set (K := E - e) in *.
    pose proof (pow2_pos K ltac:(lia)) as HK.
    assert (Hsecond : E < 0 -> 2 ^ (- E) <= m / 2 ^ K).
    { intros HEneg. apply Z.div_le_lower_bound; [exact HK|].
      rewrite Z.mul_comm, <- pow2_split by lia.
      replace (- E + K) with (- e) by (unfold K; lia).
      apply He. lia. }
    split; [|exact Hsecond].
    destruct (Z_lt_le_dec E 0) as [HEneg|HEpos].
    + pose proof (pow2_pos (- E) ltac:(lia)). specialize (Hsecond HEneg). lia.
    + apply Z.div_le_lower_bound; [exact HK|]. rewrite Z.mul_1_r.
      apply Z.le_trans with (2 ^ (d - 1)); [|lia].
      apply Z.pow_le_mono_r; lia.
Qed.

Lemma round_aux_at_least_one (q e' : Z) (loc : location) :
  at_least_one q e' ->
  match binary_round_aux prec emax false q e' loc with
  | S754_finite s m e => s = false /\ 1 <= Z.shiftl (Z.pos m) e
  | S754_infinity _ => True
  | _ => False
  end.
Proof.
  intros Hq. unfold binary_round_aux.
  pose proof (stage_at_least_one q e' loc Hq) as H1.
  destruct (shr_fexp prec emax q e' loc) as [mrs' e1].
  cbn [fst snd] in H1.
  set (mr := round_nearest_even (shr_m mrs') (loc_of_shr_record mrs')).
  assert (Hmr : at_least_one mr e1).
  { pose proof (rne_bounds (shr_m mrs') (loc_of_shr_record mrs')) as Hb.
    destruct H1 as [Ha Hb']. fold mr in Hb.
    split; [lia|]. intros Hneg. specialize (Hb' Hneg). lia. }
  pose proof (stage_at_least_one mr e1 loc_Exact Hmr) as H2.
  destruct (shr_fexp prec emax mr e1 loc_Exact) as [mrs'' e2].
  cbn [fst snd] in H2. destruct H2 as [Hm2 He2].
  destruct (shr_m mrs'') as [|m|m]; try lia.
  destruct (Z.leb e2 (emax - prec)); [|trivial].
  split; [reflexivity|].
  destruct (Z_lt_le_dec e2 0) as [Hneg|Hpos].
  - rewrite Z.shiftl_div_pow2 by lia.
    apply Z.div_le_lower_bound; [apply pow2_pos; lia|].
    rewrite Z.mul_1_r. apply He2. exact Hneg.
  - rewrite Z.shiftl_mul_pow2 by lia.
    pose proof (pow2_pos e2 Hpos). nia.
Qed.

Lemma SFdiv_at_least_one (mx my : positive) (ex ey : Z) :
  bounded prec emax mx ex = true -> bounded prec emax my ey = true ->
  SFleb (S754_finite false my ey) (S754_finite false mx ex) = true ->
  match SFdiv prec emax (S754_finite false mx ex) (S754_finite false my ey) with
  | S754_finite s m e => s = false /\ 1 <= Z.shiftl (Z.pos m) e
  | S754_infinity _ => True
  | _ => False
  end.
Proof.
  intros Bx By Hle.
  destruct (bounded_cases mx ex Bx) as (Hd1 & Hex & Hnx).
  destruct (bounded_cases my ey By) as (Hd2 & Hey & Hny).
  pose proof (digits2_bounds mx) as Hmx.
  pose proof (digits2_bounds my) as Hmy.
  set (d1 := Z.pos (digits2_pos mx)) in *.
  set (d2 := Z.pos (digits2_pos my)) in *.
  assert (Hd1pos : 1 <= d1) by (unfold d1; lia).
  assert (Hd2pos : 1 <= d2) by (unfold d2; lia).
  assert (Hcmp : ey < ex \/ (ey = ex /\ Z.pos my <= Z.pos mx)).
  { unfold SFleb, SFcompare in Hle.
    destruct (Z.compare_spec ey ex) as [E|L|G]; [|left; exact L|discriminate].
    right. split; [exact E|].
    change (Pos.compare_cont Eq my mx) with (Pos.compare my mx) in Hle.
    destruct (Pos.compare_spec my mx); try discriminate; lia. }
  set (g := ex - ey).
  assert (Hg : 0 <= g) by (unfold g; lia).
  assert (HP : 2 ^ 53 = 9007199254740992) by reflexivity.
  assert (Hmy53 : Z.pos my < 2 ^ 53).
  { apply Z.lt_le_trans with (2 ^ d2); [lia|].
    apply Z.pow_le_mono_r; lia. }
  assert (K1 : Z.pos my <= Z.pos mx * 2 ^ g).
  { destruct Hcmp as [L|[E L]].
    - assert (Hd1eq : d1 = 53) by lia.
      assert (Hmx52 : 2 ^ 52 <= Z.pos mx) by (rewrite Hd1eq in Hmx; apply Hmx).
      assert (H52 : 2 ^ 52 = 4503599627370496) by reflexivity.
      assert (Hpg : 2 <= 2 ^ g).
      { change 2 with (2 ^ 1) at 1. apply Z.pow_le_mono_r; unfold g; lia. }
      nia.
    - replace g with 0 by (unfold g; lia). change (2 ^ 0) with 1. lia. }
  unfold SFdiv, SFdiv_core_binary. cbn [xorb Zdigits2]. fold d1 d2.
  set (delta := d1 + ex - (d2 + ey)).
  set (e' := Z.min (fexp prec emax delta) (ex - ey)).
  assert (Hfexp : fexp prec emax delta = Z.max (delta - 53) (-1074))
    by reflexivity.
  assert (He'g : e' <= g) by (unfold e', g; lia).
  set (s := ex - ey - e').
  assert (Hs : 0 <= s) by (unfold s, g in *; lia).
  set (m' := match s with
             | 0 => Z.pos mx
             | Z.pos _ => Z.shiftl (Z.pos mx) s
             | Z.neg _ => 0
             end).
  assert (Hm' : m' = Z.pos mx * 2 ^ s).
  { unfold m'. apply shift_align. exact Hs. }
  clearbody m'.
  pose proof (Z_div_mod m' (Z.pos my) ltac:(lia)) as Hdm.
  destruct (Z.div_eucl m' (Z.pos my)) as [q r].
  destruct Hdm as [Hqr Hr].
  apply round_aux_at_least_one.
  assert (Hneg : e' < 0 -> 2 ^ (- e') <= q).
  { intros He'. pose proof (pow2_pos (- e') ltac:(lia)) as Hp.
    assert (Hle' : Z.pos my * 2 ^ (- e') <= m').
    { rewrite Hm'. replace s with (g + - e') by (unfold s, g; lia).
      rewrite pow2_split by lia. nia. }
    nia. }
  split; [|exact Hneg].
  destruct (Z_lt_le_dec e' 0) as [He'|He'].
  - pose proof (pow2_pos (- e') ltac:(lia)). specialize (Hneg He'). lia.
  - assert (Hs53 : 53 - d1 + d2 <= s) by (unfold s, e', delta in *; lia).
    assert (Hbig : 2 ^ (52 + d2) <= m').
    { rewrite Hm'.
      apply Z.le_trans with (2 ^ (d1 - 1) * 2 ^ (53 - d1 + d2)).
      - rewrite <- pow2_split by lia. apply Z.pow_le_mono_r; lia.
      - pose proof (pow2_pos (d1 - 1) ltac:(lia)) as Hp1.
        pose proof (pow2_pos (53 - d1 + d2) ltac:(lia)) as Hp2.
        assert (Hp3 : 2 ^ (53 - d1 + d2) <= 2 ^ s)
          by (apply Z.pow_le_mono_r; lia).
        nia. }
    assert (Hmy' : Z.pos my < 2 ^ (52 + d2)).
    { apply Z.lt_le_trans with (2 ^ d2); [lia|].
      apply Z.pow_le_mono_r; lia. }
    nia.
Qed.

(** A binary64 duration that is at least the step gives a step count of at
    least one, whenever the quotient is finite. *)
Lemma b64_one_step (x y : float) (n : Z) :
  is_positive y -> (y <=? x)%num = true -> to_int (x / y)%num = inr n ->
  1 <= n.
Proof.
  unfold is_positive. cbn [num_leb num_ltb num_quot to_int of_int binary64].
  rewrite leb_spec, ltb_spec.
  change (Prim2SF (float_of_int 0)) with (S754_zero false).
  unfold float_to_int. rewrite div_spec.
  pose proof (Prim2SF_valid x) as Vx. pose proof (Prim2SF_valid y) as Vy.
  destruct (Prim2SF x) as [sx|sx| |sx mx ex];
    destruct (Prim2SF y) as [sy|sy| |sy my ey];
    try destruct sx; try destruct sy;
    try solve [cbn; discriminate | cbn; intros; discriminate].
  intros _ Hle. cbn [valid_binary] in Vx, Vy.
  pose proof (SFdiv_at_least_one mx my ex ey Vx Vy Hle) as Hdiv.
  unfold SF64div.
  destruct (SFdiv prec emax (S754_finite false mx ex) (S754_finite false my ey))
    as [s|s| |s m e]; try contradiction; try discriminate.
  destruct Hdiv as [-> Hone]. intros E. inversion E. lia.
Qed.

Local Close Scope Z_scope.

Lemma b64_one_mul_int (x : float) : (of_int 1 * x)%num = x.
Proof. exact (b64_one_mul x). Qed.

Lemma b64_step_laws : StepLaws float.
Proof. split; [exact b64_one_step | exact b64_one_mul_int]. Qed.

End Binary64_first_step.

#[export] Existing Instance b64_step_laws.

Section Exact_first_step.

Local Open Scope Qc_scope.

Lemma exact_one_step (x y : Qc) (n : Z) :
  is_positive y -> (y <=? x)%num = true -> to_int (x / y)%num = inr n ->
  (1 <= n)%Z.
Proof.
  rewrite exact_positive, exact_leb. cbn [num_quot exact]. intros Hy Hle Hn.
  assert (Hy0 : y <> 0) by (intros E; subst y; exact (Qclt_not_eq _ _ Hy eq_refl)).
  assert (H1 : 1 <= x / y).
  { replace 1 with (y / y) by (field; exact Hy0).
    unfold Qcdiv. apply Qcmult_le_compat_r; [exact Hle|].
    apply exact_inv_nonneg. exact Hy. }
  assert (Hq : 0 <= x / y) by (apply Qcle_trans with 1; [discriminate|exact H1]).
  destruct (exact_to_int_bounds _ _ Hq Hn) as [_ Hhi].
  assert (1 < n + 1)%Z; [|lia].
  apply exact_of_int_lt_inv. rewrite exact_of_int_1.
  apply Qcle_lt_trans with (x / y); assumption.
Qed.

Lemma exact_one_mul (x : Qc) : (of_int 1 * x)%num = x.
Proof. cbn [num_mul exact]. rewrite exact_of_int_1. ring. Qed.

Lemma exact_step_laws : StepLaws Qc.
Proof. split; [exact exact_one_step | exact exact_one_mul]. Qed.

End Exact_first_step.

#[export] Existing Instance exact_step_laws.

(** The loop runs when the step fits.  In both arithmetics, for a positive
    duration and a positive step that is at most the duration, the step
    count is at least one whenever [int()] returns it, and the first sample
    of the run is shown at time [dt] exactly, at the fraction
    [dt / total_time] of the way.  (In binary64 [1 * dt] is [dt], and a
    quotient of [dt <= total_time] never rounds below one.) *)
Theorem first_sample {F : Type} `{NumberLaws F} `{!StepLaws F} (lm : Libm F)
    (T1_ T2_ M0_ : F) (start_pos final_pos : vec3 F) (total_time dt : F)
    (n : Z) :
  is_nonzero T1_ -> is_nonzero T2_ ->
  is_positive total_time -> is_positive dt ->
  (dt <=? total_time)%num = true ->
  to_int (total_time / dt)%num = inr n ->
  (1 <= n)%Z
  /\ hd_error (snd (sampler lm T1_ T2_ M0_ start_pos final_pos total_time dt))
     = Some (Sample (lerp start_pos final_pos (dt / total_time)%num) dt).
Proof.
  intros H1 H2 Ht Hd Hle Hn.
  pose proof (one_step total_time dt n Hd Hle Hn) as Hn1.
  split; [exact Hn1|].
  rewrite (sampler_closed_form lm _ _ _ _ _ _ _ n)
    by (try assumption; apply positive_nonzero; assumption).
  cbn [snd]. unfold step_indices.
  destruct (Z.to_nat n) as [|k] eqn:Hk; [lia|].
  cbn [seq map app hd_error]. unfold step_sample, step_alpha, step_time.
  change (Z.of_nat 1) with 1%Z. rewrite one_mul. reflexivity.
Qed.

Lemma first_sample_witness :
  let start_pos := Vec3 0%float 1%float 0%float in
  let final_pos := Vec3 0.052%float 0%float 0.966%float in
  (1 <= 5)%Z
  /\ hd_error (snd (sampler libm_15deg 1%float 0.1%float 1%float
                            start_pos final_pos 0.3%float 0.05%float))
     = Some (Sample (lerp start_pos final_pos (0.05%float / 0.3%float)%num) 0.05%float).
Proof.
  cbv zeta.
  apply (first_sample libm_15deg 1%float 0.1%float 1%float
           (Vec3 0%float 1%float 0%float)
           (Vec3 0.052%float 0%float 0.966%float) 0.3%float 0.05%float 5%Z);
    vm_compute; reflexivity.
Defined.

(** ** The parameter display *)

Section Readouts.

Import String.

(** The time readout.  With the step [dt = 0.05] of the script, the time
    [(i + 1) * dt] of each of the first 2000 iterations prints as the exact
    multiple [0.05 * (i + 1)]: no rounding of the binary64 product shows in
    the two decimals, for any duration up to 100 seconds. *)
Theorem time_readout (i : Z) :
  (1 <= i <= 2000)%Z ->
  Display.format_2f (step_time (decimal 5 2) i)
  = Display.hundredths_text (5 * i).
Proof.
  intros Hi.
  assert (Hall : forallb
            (fun i =>
               eqb (Display.format_2f (step_time (decimal 5 2) i))
                   (Display.hundredths_text (5 * i)))
            (step_indices 2000) = true) by (vm_compute; reflexivity).
  rewrite forallb_forall in Hall.
  apply eqb_eq. apply Hall. apply step_indices_range. exact Hi.
Qed.

Lemma time_readout_witness :
  Display.format_2f (step_time (decimal 5 2) 3)
  = Display.hundredths_text (5 * 3).
Proof. apply (time_readout 3). lia. Defined.

(** The readout of [PositionCheck].  The arrow it draws ends at the
    equilibrium vector of the main scene, in any arithmetic.  With numpy's
    sine and cosine of 15 degrees, the main scene's display would print this
    vector as "Mx: 0.05", "My: 0.00", "Mz: 0.97"; the texts [PositionCheck]
    shows beside it are "Mx: 0.20", "My: 0.00", "Mz: 0.97". *)
Theorem position_check_readout :
  (forall (F : Type) (N : Number F) (lm : Libm F) (testing : bool),
      equilibrium_end (snd (construct lm testing))
      = Some (PositionCheck.magnetization_end (PositionCheck.construct lm)))
  /\ (let shown := PositionCheck.construct libm_15deg in
      firstn 3 (Display.parameter_texts (PositionCheck.magnetization_end shown)
                                        0%float)
      = ["Mx: 0.05"; "My: 0.00"; "Mz: 0.97"]%string
      /\ PositionCheck.displays shown
         = ["Mx: 0.20"; "My: 0.00"; "Mz: 0.97"]%string).
Proof.
  split.
  - intros F N lm testing. unfold construct. unfold bind, emit.
    rewrite demonstrate_sets_equilibrium. reflexivity.
  - cbv zeta. split; vm_compute; reflexivity.
Qed.

End Readouts.
